(** * sloboden-pecat-scraper: harvest loop, category store, normalizer, merger,
    category split

    A shallow embedding of [scrape.py], [utils/consolidate_data.py] and the
    grouping of [utils/split_data.py].
    Python values read from JSON are modelled by [json]; a Python [str] is
    the list of its code points (so that [len] counts characters, as in
    Python); exceptions are explicit in [result]; the file system, the
    remote API and the wall clock are explicit state or parameters.

    JSON numbers with a fractional part are not modelled. *)

From Stdlib Require Import ZArith NArith Ascii String List Bool Lia.
From stdpp Require Import base decidable countable gmap strings list sorting.

Local Open Scope Z_scope.
Set Warnings "-register-all,-clear-no-such-hyp".

(** ** Python strings *)

(** A [str] is its sequence of Unicode code points. *)
Abbreviation pystr := (list N).

(** Literals are written as UTF-8 text and decoded. *)
Fixpoint utf8_decode (bs : list N) : pystr :=
  match bs with
  | [] => []
  | b :: r =>
      if (b <? 128)%N then b :: utf8_decode r
      else if (b <? 224)%N then
        match r with
        | c :: r1 => ((b - 192) * 64 + (c - 128))%N :: utf8_decode r1
        | _ => []
        end
      else if (b <? 240)%N then
        match r with
        | c :: d :: r2 =>
            ((b - 224) * 4096 + (c - 128) * 64 + (d - 128))%N :: utf8_decode r2
        | _ => []
        end
      else
        match r with
        | c :: d :: e :: r3 =>
            ((b - 240) * 262144 + (c - 128) * 4096 + (d - 128) * 64 + (e - 128))%N
              :: utf8_decode r3
        | _ => []
        end
  end.

Fixpoint bytes_of (s : string) : list N :=
  match s with
  | EmptyString => []
  | String a r => N_of_ascii a :: bytes_of r
  end.

Definition u8 (s : string) : pystr := utf8_decode (bytes_of s).

(** [len(t)] *)
Definition len (t : pystr) : Z := Z.of_nat (length t).

(** [needle in t] on strings *)
Fixpoint starts_with (needle t : pystr) : bool :=
  match needle, t with
  | [], _ => true
  | _ :: _, [] => false
  | a :: needle', b :: t' => (a =? b)%N && starts_with needle' t'
  end.

Fixpoint contains (needle t : pystr) : bool :=
  starts_with needle t ||
  match t with
  | [] => false
  | _ :: t' => contains needle t'
  end.

(** [str.isspace] for one character *)
Definition is_space (c : N) : bool :=
  ((9 <=? c) && (c <=? 13) || (28 <=? c) && (c <=? 32) || (c =? 133) || (c =? 160)
   || (c =? 5760) || (8192 <=? c) && (c <=? 8202) || (c =? 8232) || (c =? 8233)
   || (c =? 8239) || (c =? 8287) || (c =? 12288))%N.

Fixpoint lstrip (t : pystr) : pystr :=
  match t with
  | [] => []
  | c :: t' => if is_space c then lstrip t' else t
  end.

(** [t.strip()] *)
Definition strip (t : pystr) : pystr := rev (lstrip (rev (lstrip t))).

(** [sep.join(parts)] *)
Fixpoint join (sep : pystr) (parts : list pystr) : pystr :=
  match parts with
  | [] => []
  | [p] => p
  | p :: rest => p ++ sep ++ join sep rest
  end.

(** ** Python values that come out of [json.load] / [r.json()] *)

Inductive json : Type :=
| JNull
| JBool (b : bool)
| JInt (z : Z)
| JStr (s : pystr)
| JList (l : list json)
| JDict (d : list (string * json)).

(** Exceptions, by class.  All of them are subclasses of [Exception]. *)
Inductive exn : Type :=
| KeyError | TypeError | AttributeError
| OSError | JSONDecodeError | RequestException | HTTPError.

Inductive result (A : Type) : Type :=
| Ok (a : A)
| Raise (e : exn).
Arguments Ok {A} a.
Arguments Raise {A} e.

Definition bind {A B} (m : result A) (k : A -> result B) : result B :=
  match m with
  | Ok a => k a
  | Raise e => Raise e
  end.

Notation "x <- m ;; k" := (bind m (fun x => k))
  (at level 100, m at next level, right associativity).

(** Truth value of a Python object: [if v], [not v]. *)
Definition truthy (v : json) : bool :=
  match v with
  | JNull => false
  | JBool b => b
  | JInt z => negb (z =? 0)
  | JStr s => match s with [] => false | _ => true end
  | JList l => match l with [] => false | _ => true end
  | JDict d => match d with [] => false | _ => true end
  end.

(** Dictionary lookup by key. *)
Fixpoint assoc (k : string) (d : list (string * json)) : option json :=
  match d with
  | [] => None
  | (k', v) :: d' => if String.eqb k k' then Some v else assoc k d'
  end.

(** [v.get(k)]: only dictionaries have [get]. *)
Definition py_get (v : json) (k : string) : result json :=
  match v with
  | JDict d => Ok (match assoc k d with Some x => x | None => JNull end)
  | _ => Raise AttributeError
  end.

(** [v[k]] with a string key. *)
Definition getitem (v : json) (k : string) : result json :=
  match v with
  | JDict d => match assoc k d with Some x => Ok x | None => Raise KeyError end
  | _ => Raise TypeError
  end.

(** [for x in v]: the items the loop visits. *)
Definition py_iter (v : json) : result (list json) :=
  match v with
  | JList l => Ok l
  | JDict d => Ok (map (fun kv => JStr (u8 (fst kv))) d)
  | JStr s => Ok (map (fun c => JStr [c]) s)
  | _ => Raise TypeError
  end.

(** [len(v)] *)
Definition py_len (v : json) : result nat :=
  match v with
  | JList l => Ok (length l)
  | JDict d => Ok (length d)
  | JStr s => Ok (length s)
  | _ => Raise TypeError
  end.

(** Elements of a Python [set]: hashable values up to Python's [==]. *)
Inductive key : Type :=
| KNone
| KInt (z : Z)
| KStr (s : pystr).

#[global] Instance key_eq_dec : EqDecision key.
Proof. solve_decision. Defined.

#[global] Instance key_countable : Countable key.
Proof.
  refine (inj_countable'
    (fun k => match k with
              | KNone => inl ()
              | KInt z => inr (inl z)
              | KStr s => inr (inr s)
              end)
    (fun x => match x with
              | inl _ => KNone
              | inr (inl z) => KInt z
              | inr (inr s) => KStr s
              end) _).
  intros []; reflexivity.
Defined.

(** Hashing: lists and dictionaries are unhashable; [True == 1], [False == 0]. *)
Definition hash_key (v : json) : result key :=
  match v with
  | JNull => Ok KNone
  | JBool b => Ok (KInt (if b then 1 else 0))
  | JInt z => Ok (KInt z)
  | JStr s => Ok (KStr s)
  | JList _ | JDict _ => Raise TypeError
  end.

(** [v in s] for a set [s] *)
Definition set_contains (v : json) (s : gset key) : result bool :=
  k <- hash_key v ;;
  Ok (bool_decide (k ∈ s)).

(** [s.add(v)] *)
Definition set_add (v : json) (s : gset key) : result (gset key) :=
  k <- hash_key v ;;
  Ok ({[k]} ∪ s).

(** ** Content normalizer: [clean_html_content] *)

(** The tree BeautifulSoup builds: text nodes and elements with their tag
    name, their [class] list and their children, in document order. *)
Inductive node : Type :=
| NText (s : pystr)
| NElem (tag : string) (classes : list string) (children : list node).

Definition str_in (x : string) (l : list string) : bool :=
  existsb (String.eqb x) l.

(** The selector
    ['.related-posts, .sharedaddy, .jp-relatedposts, script, style, iframe, figure, form']. *)
Definition unwanted_classes : list string :=
  ["related-posts"; "sharedaddy"; "jp-relatedposts"]%string.
Definition unwanted_tags : list string :=
  ["script"; "style"; "iframe"; "figure"; "form"]%string.

Definition selected (tag : string) (classes : list string) : bool :=
  existsb (fun c => str_in c classes) unwanted_classes || str_in tag unwanted_tags.

(** [for unwanted in soup.select(...): unwanted.decompose()]: every selected
    element goes, with its subtree. *)
Fixpoint decompose_unwanted (n : node) : list node :=
  match n with
  | NText _ => [n]
  | NElem tag classes children =>
      if selected tag classes then []
      else [NElem tag classes (flat_map decompose_unwanted children)]
  end.

(** [find_all(names)]: the matching elements below a node, the node itself
    included, in document order; nested matches are all reported. *)
Fixpoint find_all (names : list string) (n : node) : list node :=
  match n with
  | NText _ => []
  | NElem tag _ children =>
      (if str_in tag names then [n] else []) ++ flat_map (find_all names) children
  end.

(** The text nodes below a node, in document order. *)
Fixpoint all_strings (n : node) : list pystr :=
  match n with
  | NText s => [s]
  | NElem _ _ children => flat_map all_strings children
  end.

Definition nonempty (t : pystr) : bool :=
  match t with [] => false | _ => true end.

(** [p.get_text(strip=True)]: every string stripped, the empty ones skipped,
    the rest concatenated. *)
Definition get_text_strip (p : node) : pystr :=
  concat (List.filter nonempty (map strip (all_strings p))).

Definition block_tags : list string := ["p"; "h2"; "h3"; "ul"; "ol"]%string.

Definition phrase_read_more_mk : pystr := u8 "Прочитајте".
Definition phrase_read_more_en : pystr := u8 "Read More".
Definition phrase_we_recommend : pystr := u8 "Ви препорачуваме".

(** The test of line 69. *)
Definition is_boilerplate (t : pystr) : bool :=
  (len t <? 100)
  && (contains phrase_read_more_mk t || contains phrase_read_more_en t
      || contains phrase_we_recommend t).

(** One turn of the loop of lines 67-72 on the text [t] of a block. *)
Definition add_block (t : pystr) (text_parts : list pystr) : list pystr :=
  if is_boilerplate t then text_parts
  else if nonempty t then text_parts ++ [t]
  else text_parts.

Fixpoint collect_blocks (blocks : list node) (text_parts : list pystr) : list pystr :=
  match blocks with
  | [] => text_parts
  | p :: rest => collect_blocks rest (add_block (get_text_strip p) text_parts)
  end.

(** Lines 62-74, on the parsed document. *)
Definition text_parts_of (soup : list node) : list pystr :=
  let soup := flat_map decompose_unwanted soup in
  collect_blocks (flat_map (find_all block_tags) soup) [].

Definition clean_soup (soup : list node) : pystr :=
  join (u8 (String "010" (String "010" EmptyString))) (text_parts_of soup).

(** ** The file system seen by the category store *)

(** A file holds either the complete JSON text of a value ([Some v]: what
    [json.dump] wrote in full and [json.load] reads back) or text that is not
    a JSON document ([None]: an empty or truncated file, or anything else). *)
Record file : Type := File {
  content : option json;
  readable : bool;
  writable : bool
}.

(** [open(filepath, 'r')], then [json.load(f)]. *)
Definition open_read (fs : gmap string file) (filepath : string) : result file :=
  match fs !! filepath with
  | None => Raise OSError
  | Some f => if readable f then Ok f else Raise OSError
  end.

Definition json_load (f : file) : result json :=
  match content f with
  | Some v => Ok v
  | None => Raise JSONDecodeError
  end.

(** [os.path.exists] *)
Definition path_exists (fs : gmap string file) (filepath : string) : bool :=
  bool_decide (is_Some (fs !! filepath)).

(** A bare [except:] around a computation that yields a value. *)
Definition try_except {A} (body : result A) (handler : A) : result A :=
  match body with
  | Ok a => Ok a
  | Raise _ => Ok handler
  end.

Definition load_data (fs : gmap string file) (filepath : string) : result json :=
  if path_exists fs filepath then
    try_except (f <- open_read fs filepath ;; json_load f) (JList [])
  else Ok (JList []).

(** What can go wrong while writing. *)
Inductive write_fault : Type :=
| NoFault
| FailsDuringDump.   (* disk full, I/O error or encoding error inside json.dump *)

(** [open(filepath, 'w')]: refused on a file that is not writable, and
    otherwise the file is created or truncated to the empty text at once. *)
Definition open_write (fs : gmap string file) (filepath : string)
  : result (gmap string file) :=
  match fs !! filepath with
  | Some f =>
      if writable f
      then Ok (<[filepath := File None (readable f) true]> fs)
      else Raise OSError
  | None => Ok (<[filepath := File None true true]> fs)
  end.

(** [json.dump(data, f, ...)] into the file just opened: the text reaches the
    file piece by piece, so a failure leaves a truncated text behind. *)
Definition json_dump (data : json) (filepath : string) (fault : write_fault)
    (fs : gmap string file) : gmap string file * result unit :=
  match fault with
  | NoFault =>
      (alter (fun f => File (Some data) (readable f) (writable f)) filepath fs, Ok tt)
  | FailsDuringDump => (fs, Raise OSError)
  end.

(** [save_data] returns the file system it leaves behind, and whether it
    raised. *)
Definition save_data (data : json) (filepath : string) (fault : write_fault)
    (fs : gmap string file) : gmap string file * result unit :=
  match open_write fs filepath with
  | Raise e => (fs, Raise e)
  | Ok fs1 => json_dump data filepath fault fs1
  end.

(** ** Corpus merger: [load_all_categories] of [utils/consolidate_data.py] *)

Module Consolidate.

(** [s.endswith(suffix)] and [s[:-5]] *)
Definition endswith (s suffix : string) : bool :=
  let n := String.length s in
  let m := String.length suffix in
  (m <=? n)%nat && String.eqb (substring (n - m) m s) suffix.

Definition drop_extension (filename : string) : string :=
  substring 0 (String.length filename - 5) filename.

(** The variables the loops update.  [category_counts] maps a category name
    to its ['original'] and ['unique'] counts. *)
Record merged : Type := Merged {
  all_articles : list json;
  seen_urls : gset key;
  category_counts : gmap string (nat * nat);
  duplicate_count : nat
}.

(** Lines 45-52, for one article; [new_count] is threaded along. *)
Definition add_article (article : json) (st : merged) (new_count : nat)
  : result (merged * nat) :=
  url <- py_get article "url" ;;
  if truthy url then
    seen <- set_contains url (seen_urls st) ;;
    if negb seen then
      urls <- set_add url (seen_urls st) ;;
      Ok ({| all_articles := all_articles st ++ [article];
             seen_urls := urls;
             category_counts := category_counts st;
             duplicate_count := duplicate_count st |}, S new_count)
    else
      Ok ({| all_articles := all_articles st;
             seen_urls := seen_urls st;
             category_counts := category_counts st;
             duplicate_count := S (duplicate_count st) |}, new_count)
  else Ok (st, new_count).

(** [for article in articles: ...]: an exception stops the loop and keeps
    what the earlier articles did to [all_articles], [seen_urls] and
    [duplicate_count]. *)
Fixpoint add_articles (articles : list json) (st : merged) (new_count : nat)
  : merged * nat * result unit :=
  match articles with
  | [] => (st, new_count, Ok tt)
  | article :: rest =>
      match add_article article st new_count with
      | Ok (st1, n1) => add_articles rest st1 n1
      | Raise e => (st, new_count, Raise e)
      end
  end.

(** The body of the loop over the files: lines 33-63, with the [try]. *)
Definition add_file (dir : gmap string file) (filename : string) (st : merged)
  : merged :=
  let category_name := drop_extension filename in
  match (f <- open_read dir filename ;; json_load f) with
  | Raise _ => st
  | Ok articles =>
      match py_len articles with
      | Raise _ => st
      | Ok original_count =>
          match py_iter articles with
          | Raise _ => st
          | Ok items =>
              match add_articles items st 0 with
              | (st1, _, Raise _) => st1
              | (st1, new_count, Ok _) =>
                  {| all_articles := all_articles st1;
                     seen_urls := seen_urls st1;
                     category_counts :=
                       <[category_name := (original_count, new_count)]>
                         (category_counts st1);
                     duplicate_count := duplicate_count st1 |}
              end
          end
      end
  end.

(** [sorted([f for f in os.listdir(data_dir) if f.endswith('.json')])] *)
Definition json_files (dir : gmap string file) : list string :=
  merge_sort String.le
    (List.filter (fun f => endswith f ".json") (map fst (map_to_list dir))).

Definition start : merged :=
  {| all_articles := []; seen_urls := ∅; category_counts := ∅; duplicate_count := 0 |}.

(** [data_dir] is [None] when the directory does not exist; the entries of
    an existing directory are given by file name. *)
Definition load_all_categories (data_dir : option (gmap string file))
  : option (list json * gmap string (nat * nat) * nat) :=
  match data_dir with
  | None => None
  | Some dir =>
      let st := fold_left (fun st filename => add_file dir filename st)
                          (json_files dir) start in
      Some (all_articles st, category_counts st, duplicate_count st)
  end.

(** [sum(c['original'] ...)] and [sum(c['unique'] ...)] of [print_statistics] *)
Definition total_original (counts : gmap string (nat * nat)) : nat :=
  map_fold (fun _ c acc => (fst c + acc)%nat) 0%nat counts.
Definition total_unique (counts : gmap string (nat * nat)) : nat :=
  map_fold (fun _ c acc => (snd c + acc)%nat) 0%nat counts.

End Consolidate.

(** ** Category split: [group_by_category] of [utils/split_data.py] *)

Module Split.

(** [article.get(k, default)] *)
Definition get_or (v : json) (k : string) (default : json) : result json :=
  match v with
  | JDict d => Ok (match assoc k d with Some x => x | None => default end)
  | _ => Raise AttributeError
  end.

(** [category_groups[category].append(article)] on a [defaultdict(list)] *)
Definition append_to (category : key) (article : json)
    (category_groups : gmap key (list json)) : gmap key (list json) :=
  <[category := match category_groups !! category with
                | Some l => l | None => []
                end ++ [article]]> category_groups.

(** [for category in categories: ...]; an unhashable category raises. *)
Fixpoint add_to_each (categories : list json) (article : json)
    (category_groups : gmap key (list json)) : result (gmap key (list json)) :=
  match categories with
  | [] => Ok category_groups
  | category :: rest =>
      k <- hash_key category ;;
      add_to_each rest article (append_to k article category_groups)
  end.

(** The body of the loop over the articles. *)
Definition group_article (article : json) (category_groups : gmap key (list json))
  : result (gmap key (list json)) :=
  categories <- get_or article "categories" (JList []) ;;
  if negb (truthy categories)
  then Ok (append_to (KStr (u8 "uncategorized")) article category_groups)
  else
    cs <- py_iter categories ;;
    add_to_each cs article category_groups.

Fixpoint group_articles (articles : list json)
    (category_groups : gmap key (list json)) : result (gmap key (list json)) :=
  match articles with
  | [] => Ok category_groups
  | article :: rest =>
      g <- group_article article category_groups ;;
      group_articles rest g
  end.

(** Nothing is caught: an exception leaves the function. *)
Definition group_by_category (articles : json) : result (gmap key (list json)) :=
  items <- py_iter articles ;;
  group_articles items ∅.

(** [sum(s['count'] ...)] of [print_statistics], where [save_category_files]
    sets each ['count'] to the length of the group. *)
Definition total_articles (category_groups : gmap key (list json)) : nat :=
  map_fold (fun _ l acc => (length l + acc)%nat) 0%nat category_groups.

End Split.

(** ** Harvest loop: [fetch_category_posts] and [main] *)

Definition MAX_PAGES_PER_CATEGORY : Z := 9999.
Definition DATA_DIR : string := "data".

Definition CATEGORY_IDS : list (string * Z) :=
  [ ("makedonija", 57); ("skopje", 1089); ("region", 1090); ("ekonomija", 67);
    ("kultura", 1373); ("hronika", 1092); ("vi-preporachuvame", 9081);
    ("svet", 1091); ("milenici", 89861); ("semejstvo", 78); ("zena", 7497);
    ("zabava", 1374); ("tehnologija", 72); ("zivot", 38079); ("scena", 42379);
    ("hrana", 76); ("zdravje", 74); ("retro", 42381); ("horoskop", 81);
    ("avtomagazin", 73); ("film-i-muzika", 71); ("kolumni", 31);
    ("golemi-prikazni", 122889); ("fudbal", 83); ("kosarka", 84);
    ("rakomet", 85); ("ostanato-sport", 86) ]%string.

(** [os.path.join(DATA_DIR, f"{category_name}.json")] *)
Definition get_category_file (category_name : string) : string :=
  (DATA_DIR ++ "/" ++ category_name ++ ".json")%string.

(** What one [requests.get] comes back with. *)
Inductive response : Type :=
| NoResponse                                   (* the call itself raises *)
| Response (status_code : Z) (body : option json).
                                               (* [None]: [r.json()] raises *)

(** What the run does to the outside: the requests it sent, as
    (category id, page), the number of clock readings, the number of pauses. *)
Record world : Type := World {
  requests_sent : list (Z * Z);
  clock : nat;
  pauses : nat
}.

(** The variables of [fetch_category_posts] that the page loop updates. *)
Record harvest : Type := Harvest {
  new_articles : list json;
  existing_urls : gset key;
  outside : world
}.

Inductive flow : Type := Continue | Break.

(** [list.extend] *)
Definition py_extend (v : json) (more : list json) : result json :=
  match v with
  | JList l => Ok (JList (l ++ more))
  | _ => Raise AttributeError
  end.

(** [{item['url'] for item in items}] *)
Fixpoint url_set (items : list json) : result (gset key) :=
  match items with
  | [] => Ok ∅
  | item :: rest =>
      url <- getitem item "url" ;;
      k <- hash_key url ;;
      s <- url_set rest ;;
      Ok ({[k]} ∪ s)
  end.

Definition amp : pystr := u8 "&".

(** [html.unescape(s)]: its first line is ['&' not in s], which a list or a
    dictionary without that member passes, and the value is returned as it
    is; on a string the entities are replaced. *)
Definition html_unescape (unescape : pystr -> pystr) (v : json) : result json :=
  match v with
  | JStr s => Ok (JStr (unescape s))
  | JList l =>
      if existsb (fun x => match x with
                           | JStr s => bool_decide (s = amp)
                           | _ => false
                           end) l
      then Raise TypeError else Ok v
  | JDict d =>
      if existsb (fun kv => String.eqb (fst kv) "&") d
      then Raise TypeError else Ok v
  | _ => Raise TypeError
  end.

Section Scraper.

(** The library functions and the environment the scraper runs against:
    the entity replacement of [html.unescape], the parser behind
    [BeautifulSoup(_, 'html.parser')], the text of
    [datetime.datetime.now().isoformat()] at the n-th reading of the clock,
    and the remote API, answering a category id and a page number. *)
Variable unescape : pystr -> pystr.
Variable html_parser : pystr -> list node.
Variable isoformat_now : nat -> pystr.
Variable remote : Z -> Z -> response.

Definition clean_html_content (html_content : json) : result pystr :=
  if negb (truthy html_content) then Ok []
  else
    match html_content with
    | JStr s => Ok (clean_soup (html_parser s))
    | _ => Raise TypeError
    end.

(** Lines 115-126: the article built from a post, [now] being the text of
    the clock reading. *)
Definition build_article (category_name : string) (post link : json) (now : pystr)
  : result json :=
  title_obj <- getitem post "title" ;;
  title_rendered <- getitem title_obj "rendered" ;;
  title <- html_unescape unescape title_rendered ;;
  content_obj <- getitem post "content" ;;
  content_html <- getitem content_obj "rendered" ;;
  text <- clean_html_content content_html ;;
  page_id <- py_get post "id" ;;
  Ok (JDict [ ("url", link); ("title", title); ("text", JStr text);
              ("categories", JList [JStr (u8 category_name)]);
              ("page_id", page_id);
              ("scraped_at", JStr now) ]%string).

(** Lines 111-130, for one post.  Nothing is updated before the last
    operation that can raise, so an exception leaves the state as it was. *)
Definition process_post (category_name : string) (post : json) (st : harvest)
  : result harvest :=
  link <- py_get post "link" ;;
  seen <- set_contains link (existing_urls st) ;;
  if (seen : bool) then Ok st
  else
    article <- build_article category_name post link
                 (isoformat_now (clock (outside st))) ;;
    urls <- set_add link (existing_urls st) ;;
    Ok {| new_articles := new_articles st ++ [article];
          existing_urls := urls;
          outside := {| requests_sent := requests_sent (outside st);
                        clock := S (clock (outside st));
                        pauses := pauses (outside st) |} |}.

(** [for post in posts: ...]: stops at the first exception, keeping what
    the earlier posts did. *)
Fixpoint process_posts (category_name : string) (posts : list json) (st : harvest)
  : harvest * result unit :=
  match posts with
  | [] => (st, Ok tt)
  | post :: rest =>
      match process_post category_name post st with
      | Ok st1 => process_posts category_name rest st1
      | Raise e => (st, Raise e)
      end
  end.

Definition send_request (category_id page : Z) (st : harvest) : harvest :=
  {| new_articles := new_articles st;
     existing_urls := existing_urls st;
     outside := {| requests_sent := requests_sent (outside st) ++ [(category_id, page)];
                   clock := clock (outside st);
                   pauses := pauses (outside st) |} |}.

Definition sleep (st : harvest) : harvest :=
  {| new_articles := new_articles st;
     existing_urls := existing_urls st;
     outside := {| requests_sent := requests_sent (outside st);
                   clock := clock (outside st);
                   pauses := S (pauses (outside st)) |} |}.

(** The body of the [try] of lines 92-142. *)
Definition try_page (category_name : string) (category_id page : Z) (st : harvest)
  : harvest * result flow :=
  let st := send_request category_id page st in
  match remote category_id page with
  | NoResponse => (st, Raise RequestException)
  | Response status_code body =>
      if status_code =? 400 then (st, Ok Break)
      else if (400 <=? status_code) && (status_code <? 600)
      then (st, Raise HTTPError)                      (* r.raise_for_status() *)
      else
        match body with
        | None => (st, Raise JSONDecodeError)         (* r.json() *)
        | Some posts =>
            if negb (truthy posts) then (st, Ok Break)
            else
              match py_iter posts with
              | Raise e => (st, Raise e)
              | Ok items =>
                  match process_posts category_name items st with
                  | (st1, Raise e) => (st1, Raise e)
                  | (st1, Ok _) => (sleep st1, Ok Continue)
                  end
              end
        end
  end.

(** [try: ... except Exception as e: ...; break] *)
Definition page_step (category_name : string) (category_id page : Z) (st : harvest)
  : harvest * flow :=
  match try_page category_name category_id page st with
  | (st1, Ok f) => (st1, f)
  | (st1, Raise _) => (st1, Break)
  end.

(** [for page in pages: ...] *)
Fixpoint paginate (category_name : string) (category_id : Z) (pages : list Z)
    (st : harvest) : harvest :=
  match pages with
  | [] => st
  | page :: rest =>
      match page_step category_name category_id page st with
      | (st1, Break) => st1
      | (st1, Continue) => paginate category_name category_id rest st1
      end
  end.

(** [range(1, MAX_PAGES_PER_CATEGORY + 1)] *)
Definition page_range : list Z := seqZ 1 MAX_PAGES_PER_CATEGORY.
Arguments page_range : simpl never.

Definition fetch_category_posts (category_name : string) (category_id : Z)
    (category_file : string) (fs : gmap string file) (w : world)
  : result (json * nat * world) :=
  existing_data <- load_data fs category_file ;;
  items <- py_iter existing_data ;;
  urls <- url_set items ;;
  _ <- py_len existing_data ;;
  let st := paginate category_name category_id page_range
              {| new_articles := []; existing_urls := urls; outside := w |} in
  data <- py_extend existing_data (new_articles st) ;;
  Ok (data, length (new_articles st), outside st).

(** The loop of [main] over the catalog; [fault_at] tells which saves fail,
    by file path.  An exception out of [fetch_category_posts] or [save_data]
    ends the run. *)
Fixpoint harvest_all (fault_at : string -> write_fault) (catalog : list (string * Z))
    (fs : gmap string file) (w : world)
  : gmap string file * world * result unit :=
  match catalog with
  | [] => (fs, w, Ok tt)
  | (cat_name, cat_id) :: rest =>
      let category_file := get_category_file cat_name in
      match fetch_category_posts cat_name cat_id category_file fs w with
      | Raise e => (fs, w, Raise e)
      | Ok (category_data, new_count, w1) =>
          match save_data category_data category_file (fault_at category_file) fs with
          | (fs1, Raise e) => (fs1, w1, Raise e)
          | (fs1, Ok _) => harvest_all fault_at rest fs1 w1
          end
      end
  end.

Definition main (fault_at : string -> write_fault) (fs : gmap string file) (w : world)
  : gmap string file * world * result unit :=
  harvest_all fault_at CATEGORY_IDS fs w.

(** * Vocabulary of the statements *)

(** The blocks the normalizer extracts from a parsed document. *)
Definition blocks_of (soup : list node) : list node :=
  flat_map (find_all block_tags) (flat_map decompose_unwanted soup).

(** A block's text matches the boilerplate phrase set. *)
Definition matches_phrase (t : pystr) : Prop :=
  contains phrase_read_more_mk t = true
  \/ contains phrase_read_more_en t = true
  \/ contains phrase_we_recommend t = true.

(** The blocks whose text reaches the normalized text. *)
Definition kept (t : pystr) : bool := negb (is_boilerplate t) && nonempty t.

(** A paragraph holding one text. *)
Definition paragraph (t : pystr) : node := NElem "p" [] [NText t].

(** The phrase "Прочитајте повеќе" followed by filler up to 150 characters. *)
Definition long_paragraph_text : pystr :=
  u8 "Прочитајте повеќе" ++ repeat 1072%N 133.

(** The content of a stored file, when there is one. *)
Definition stored (fs : gmap string file) (filepath : string) : option json :=
  f ← fs !! filepath; content f.

(** Inputs of the examples. *)
Definition an_article (url title : string) : json :=
  JDict [ ("url", JStr (u8 url)); ("title", JStr (u8 title)) ]%string.

Definition sport_fs : gmap string file :=
  {[ "data/sport.json"%string :=
       File (Some (JList [an_article "https://a/1" "first"])) true true ]}.

(** The key an item is stored under: its ['url'], hashed. *)
Definition url_key (item : json) : option key :=
  match getitem item "url" with
  | Ok url => match hash_key url with Ok k => Some k | Raise _ => None end
  | Raise _ => None
  end.

Definition has_url (item : json) : Prop := is_Some (url_key item).

Definition url_keys (items : list json) : list key := omap url_key items.

(** The url of an item is a non-empty string. *)
Definition nonempty_url (item : json) : Prop :=
  exists s, getitem item "url" = Ok (JStr s) /\ s <> [].

(** The link of a post is a non-empty string. *)
Definition nonempty_link (post : json) : Prop :=
  exists s, py_get post "link" = Ok (JStr s) /\ s <> [].

(** The posts page [page] of a category holds, when the answer has any. *)
Definition page_posts (category_id page : Z) : list json :=
  match remote category_id page with
  | Response _ (Some posts) =>
      match py_iter posts with Ok items => items | Raise _ => [] end
  | _ => []
  end.

(** [article] is what the scraper builds from [post]. *)
Definition built_from (category_name : string) (post article : json) : Prop :=
  exists link now,
    py_get post "link" = Ok link
    /\ build_article category_name post link now = Ok article.


(** A status [raise_for_status] lets through. *)
Definition status_ok (status_code : Z) : Prop :=
  status_code < 400 \/ 600 <= status_code.

(** The state of the page loop is what a run started with the url set [U0]
    and no new article can reach. *)
Definition grown_from (U0 : gset key) (st : harvest) : Prop :=
  Forall has_url (new_articles st)
  /\ NoDup (url_keys (new_articles st))
  /\ (forall k, k ∈ url_keys (new_articles st) -> k ∉ U0)
  /\ existing_urls st = list_to_set (url_keys (new_articles st)) ∪ U0.

(** A category file the harvest can start from and save to: what [load_data]
    yields is a list of items stored under a url, and the file, when there is
    one, can be written. *)
Definition store_ok (fs : gmap string file) (filepath : string) : Prop :=
  (forall f, fs !! filepath = Some f -> writable f = true)
  /\ exists items, load_data fs filepath = Ok (JList items) /\ Forall has_url items.

(** [st1] is reached from [st] by handling some of [posts], in order: the
    new articles are those of [st] followed by the articles built from a
    subsequence of [posts]; known urls stay known, the requests sent stay
    sent, and the state stays one a run from [U0] can reach. *)
Definition extends (category_name : string) (posts : list json) (st st1 : harvest) : Prop :=
  exists used added,
    new_articles st1 = new_articles st ++ added
    /\ sublist used posts
    /\ Forall2 (built_from category_name) used added
    /\ existing_urls st ⊆ existing_urls st1
    /\ requests_sent (outside st) `prefix_of` requests_sent (outside st1)
    /\ (forall U0, grown_from U0 st -> grown_from U0 st1).

(** The two ways a post goes through the loop body: skipped, its url being
    known, or appended as a new article under a url that was not. *)
Inductive post_step (cat : string) (post : json) (st : harvest) : harvest -> Prop :=
| post_skipped link k :
    py_get post "link" = Ok link -> hash_key link = Ok k ->
    k ∈ existing_urls st ->
    post_step cat post st st
| post_added link k a :
    py_get post "link" = Ok link -> hash_key link = Ok k ->
    k ∉ existing_urls st ->
    build_article cat post link (isoformat_now (clock (outside st))) = Ok a ->
    post_step cat post st
      {| new_articles := new_articles st ++ [a];
         existing_urls := {[k]} ∪ existing_urls st;
         outside := {| requests_sent := requests_sent (outside st);
                       clock := S (clock (outside st));
                       pauses := pauses (outside st) |} |}.

(** Inputs of the examples: a post as the API returns it, a remote with three
    pages, a parser that makes one paragraph of its input, a clock. *)
Definition a_post (id : Z) (link title body : string) : json :=
  JDict [ ("id", JInt id); ("link", JStr (u8 link));
          ("title", JDict [("rendered", JStr (u8 title))]);
          ("content", JDict [("rendered", JStr (u8 body))]) ]%string.

Definition page1 : list json :=
  [a_post 11 "https://a/1" "one" "<p>first</p>"; a_post 12 "https://a/2" "two" "<p>second</p>"].
Definition page2 : list json :=
  [a_post 12 "https://a/2" "two" "<p>second</p>"; a_post 13 "https://a/3" "three" "<p>third</p>"].
Definition page3 : list json :=
  [a_post 14 "https://a/4" "four" "<p>fourth</p>"].

Definition three_pages (category_id page : Z) : response :=
  if page =? 1 then Response 200 (Some (JList page1))
  else if page =? 2 then Response 200 (Some (JList page2))
  else if page =? 3 then Response 200 (Some (JList page3))
  else Response 200 (Some (JList [])).

Definition one_paragraph (s : pystr) : list node := [paragraph s].
Definition no_entities (s : pystr) : pystr := s.
Definition tick (n : nat) : pystr := u8 "2024-01-01T00:00:" ++ [N.of_nat n].
Definition quiet : world := {| requests_sent := []; clock := 0; pauses := 0 |}.

(** A remote whose only post has the empty string for a link. *)
Definition empty_link_remote (category_id page : Z) : response :=
  if page =? 1 then Response 200 (Some (JList [a_post 11 "" "one" "<p>first</p>"]))
  else Response 200 (Some (JList [])).

(** More inputs of the examples: a post without a title between two good
    ones, a remote that is down, a store with an item that has no url. *)
Definition broken_post : json := JDict [ ("link", JStr (u8 "https://a/9")) ]%string.

Definition one_broken_post (category_id page : Z) : response :=
  if page =? 1
  then Response 200 (Some (JList [a_post 11 "https://a/1" "one" "<p>first</p>"; broken_post;
                                  a_post 12 "https://a/2" "two" "<p>second</p>"]))
  else Response 200 (Some (JList page3)).

Definition down (category_id page : Z) : response := NoResponse.

Definition disk_full (filepath : string) : write_fault := FailsDuringDump.


(** *** Vocabulary of the corpus merger *)

(** The key the merger files an article under: its ['url'], when it is truthy
    and hashable. *)
Definition merge_key (article : json) : option key :=
  match py_get article "url" with
  | Ok url =>
      if truthy url
      then match hash_key url with Ok k => Some k | Raise _ => None end
      else None
  | Raise _ => None
  end.

(** An article the merger's loop body gets through: an object whose ['url']
    is missing, falsy, or hashable. *)
Definition mergeable (article : json) : bool :=
  match py_get article "url" with
  | Ok url =>
      if truthy url
      then match hash_key url with Ok _ => true | Raise _ => false end
      else true
  | Raise _ => false
  end.

(** An object whose ['url'] is missing, null or empty. *)
Definition no_url (article : json) : bool :=
  match py_get article "url" with
  | Ok url => negb (truthy url)
  | Raise _ => false
  end.

Definition with_key (k : key) (article : json) : bool :=
  bool_decide (merge_key article = Some k).

(** Reference for the merge: of the articles that have a key, those whose
    key is not in [seen] and did not occur earlier in the list. *)
Fixpoint first_seen (seen : gset key) (articles : list json) : list json :=
  match articles with
  | [] => []
  | a :: rest =>
      match merge_key a with
      | Some k =>
          if decide (k ∈ seen) then first_seen seen rest
          else a :: first_seen ({[k]} ∪ seen) rest
      | None => first_seen seen rest
      end
  end.

(** What a file of the directory holds, when it is a JSON list. *)
Definition file_articles (dir : gmap string file) (filename : string) : list json :=
  match dir !! filename with
  | Some f => match content f with Some (JList items) => items | _ => [] end
  | None => []
  end.

(** All the articles the merger is given, in the order it visits them. *)
Definition merge_stream (dir : gmap string file) : list json :=
  flat_map (file_articles dir) (Consolidate.json_files dir).

(** A category file the merger reads to its end. *)
Definition merge_input (dir : gmap string file) (filename : string) : Prop :=
  exists f items,
    dir !! filename = Some f /\ readable f = true
    /\ content f = Some (JList items)
    /\ Forall (fun a => mergeable a = true) items.

(** The merged articles are filed under pairwise-distinct keys, the ones in
    [seen_urls]. *)
Definition merged_ok (st : Consolidate.merged) : Prop :=
  Forall (fun a => is_Some (merge_key a)) (Consolidate.all_articles st)
  /\ NoDup (omap merge_key (Consolidate.all_articles st))
  /\ Consolidate.seen_urls st = list_to_set (omap merge_key (Consolidate.all_articles st)).


(** Inputs of the merger's examples: two category files that share a url,
    one of them with an article without url, beside a file that is no JSON;
    and a file with a string among its articles. *)
Definition two_files : gmap string file :=
  <[ "a.json"%string :=
       File (Some (JList [an_article "https://a/1" "A1";
                          JDict [("title", JStr (u8 "untitled"))]%string;
                          an_article "https://a/2" "A2"])) true true ]>
  (<[ "a-b.json"%string :=
       File (Some (JList [an_article "https://a/1" "B1"])) true true ]>
  (<[ "notes.txt"%string := File None true true ]> ∅)).

Definition file_with_string : gmap string file :=
  {[ "x.json"%string :=
       File (Some (JList [an_article "https://a/1" "X1"; JStr (u8 "oops");
                          an_article "https://a/2" "X2"])) true true ]}.


(** An element the selector of line 62 matches, anywhere in a subtree. *)
Fixpoint has_unwanted (n : node) : bool :=
  match n with
  | NText _ => false
  | NElem tag classes children => selected tag classes || existsb has_unwanted children
  end.

(** [reaches n s]: the text node [s] lies in the subtree of [n] and no
    element on the way down to it, [n] included, is matched by the selector. *)
Inductive reaches : node -> pystr -> Prop :=
| reaches_text s : reaches (NText s) s
| reaches_elem tag classes children c s :
    selected tag classes = false -> c ∈ children -> reaches c s ->
    reaches (NElem tag classes children) s.

(** A list with one item, a paragraph. *)
Definition list_with_paragraph (t : pystr) : node :=
  NElem "ul" [] [NElem "li" [] [paragraph t]].


(** The groups an article goes to, one entry for each time it is added:
    ['uncategorized'] when its ['categories'] is missing or falsy, and the
    keys of its categories otherwise.  [None] when the loop body raises on
    the article. *)
Definition uncategorized : key := KStr (u8 "uncategorized").

Fixpoint keys_of (categories : list json) : option (list key) :=
  match categories with
  | [] => Some []
  | c :: rest =>
      match hash_key c, keys_of rest with
      | Ok k, Some ks => Some (k :: ks)
      | _, _ => None
      end
  end.

Definition filed_under (article : json) : option (list key) :=
  match article with
  | JDict d =>
      match assoc "categories" d with
      | None => Some [uncategorized]
      | Some categories =>
          if truthy categories
          then match py_iter categories with
               | Ok cs => keys_of cs
               | Raise _ => None
               end
          else Some [uncategorized]
      end
  | _ => None
  end.

Definition targets (article : json) : list key :=
  match filed_under article with Some ks => ks | None => [] end.

(** How often [c] is among the keys [ks]. *)
Definition times (c : key) (ks : list key) : nat :=
  length (List.filter (fun k => bool_decide (k = c)) ks).

Definition group (category_groups : gmap key (list json)) (c : key) : list json :=
  match category_groups !! c with Some l => l | None => [] end.

(** Three articles: one under two categories, one without categories, one
    under the first category again. *)
Definition filed_articles : list json :=
  [ JDict [("url", JStr (u8 "https://a/1"));
           ("categories", JList [JStr (u8 "sport"); JStr (u8 "svet")])]%string;
    JDict [("url", JStr (u8 "https://a/2"))]%string;
    JDict [("url", JStr (u8 "https://a/3"));
           ("categories", JList [JStr (u8 "sport")])]%string ].

(** * Properties *)

(** ** Category store *)

Lemma load_data_absent fs filepath :
  fs !! filepath = None -> load_data fs filepath = Ok (JList []).
Proof.
  intros H. unfold load_data, path_exists. rewrite H.
  rewrite bool_decide_eq_false_2; [reflexivity | intros [x Hx]; discriminate].
Qed.

Lemma load_data_present fs filepath f :
  fs !! filepath = Some f ->
  load_data fs filepath =
    Ok (if readable f then match content f with Some v => v | None => JList [] end
        else JList []).
Proof.
  intros H. unfold load_data, path_exists, open_read, json_load. rewrite H.
  rewrite bool_decide_eq_true_2 by eauto.
  destruct (readable f); simpl; [destruct (content f)|]; reflexivity.
Qed.

(** C9: [load_data] always returns a value and never raises; the value is the
    empty list when the file is absent, when it cannot be opened for reading,
    and when its text is not valid JSON. *)
Theorem load_data_never_raises (fs : gmap string file) (filepath : string) :
  (exists v, load_data fs filepath = Ok v)
  /\ (fs !! filepath = None -> load_data fs filepath = Ok (JList []))
  /\ (forall f, fs !! filepath = Some f -> readable f = false ->
        load_data fs filepath = Ok (JList []))
  /\ (forall f, fs !! filepath = Some f -> content f = None ->
        load_data fs filepath = Ok (JList [])).
Proof.
  repeat split.
  - destruct (fs !! filepath) as [f|] eqn:E.
    + rewrite (load_data_present _ _ _ E). eauto.
    + rewrite (load_data_absent _ _ E). eauto.
  - apply load_data_absent.
  - intros f E Hr. rewrite (load_data_present _ _ _ E), Hr. reflexivity.
  - intros f E Hc. rewrite (load_data_present _ _ _ E), Hc.
    destruct (readable f); reflexivity.
Qed.

(** C3, as stated, fails: a save that fails inside [json.dump] has already
    truncated the file, so the prior collection is gone and the next load
    yields the empty list. *)
Lemma save_data_failure_loses_prior_content :
  load_data sport_fs "data/sport.json" = Ok (JList [an_article "https://a/1" "first"])
  /\ (save_data (JList [an_article "https://a/1" "first"; an_article "https://a/2" "second"])
        "data/sport.json" FailsDuringDump sport_fs).2 = Raise OSError
  /\ stored (save_data (JList [an_article "https://a/1" "first"; an_article "https://a/2" "second"])
        "data/sport.json" FailsDuringDump sport_fs).1 "data/sport.json" = None
  /\ load_data (save_data (JList [an_article "https://a/1" "first"; an_article "https://a/2" "second"])
        "data/sport.json" FailsDuringDump sport_fs).1 "data/sport.json" = Ok (JList []).
Proof. vm_compute. repeat split; reflexivity. Qed.

(** C3, amended: [save_data] touches no other file and has three outcomes.
    It returns, and the file holds the full new collection, which a load of a
    readable file gives back.  Or [open] refuses, and the file system is as it
    was.  Or the write fails after the file was truncated: the file holds no
    JSON document and a load gives the empty list. *)
Theorem save_data_outcomes (data : json) (filepath : string) (fault : write_fault)
    (fs : gmap string file) :
  (forall p, p <> filepath -> (save_data data filepath fault fs).1 !! p = fs !! p)
  /\ match (save_data data filepath fault fs).2 with
     | Ok _ =>
         exists f, (save_data data filepath fault fs).1 !! filepath = Some f
           /\ content f = Some data
           /\ (readable f = true ->
               load_data (save_data data filepath fault fs).1 filepath = Ok data)
     | Raise _ =>
         (save_data data filepath fault fs).1 = fs
         \/ (stored (save_data data filepath fault fs).1 filepath = None
             /\ load_data (save_data data filepath fault fs).1 filepath = Ok (JList []))
     end.
Proof.
  unfold save_data, open_write, json_dump, stored.
  destruct (fs !! filepath) as [f|] eqn:E; [destruct (writable f) eqn:W|];
    destruct fault; simpl; split;
    try (intros p Hp; rewrite ?lookup_alter_ne, ?lookup_insert_ne by congruence; reflexivity);
    try (left; reflexivity).
  - eexists. rewrite lookup_alter_eq, lookup_insert_eq. simpl.
    repeat split. intros Hr. simpl in Hr.
    erewrite load_data_present by (rewrite lookup_alter_eq, lookup_insert_eq; reflexivity).
    simpl. rewrite Hr. reflexivity.
  - right. rewrite lookup_insert_eq. simpl. split; [reflexivity|].
    erewrite load_data_present by apply lookup_insert_eq.
    simpl. destruct (readable f); reflexivity.
  - eexists. rewrite lookup_alter_eq, lookup_insert_eq. simpl.
    repeat split. intros _.
    erewrite load_data_present by (rewrite lookup_alter_eq, lookup_insert_eq; reflexivity).
    reflexivity.
  - right. rewrite lookup_insert_eq. simpl. split; [reflexivity|].
    erewrite load_data_present by apply lookup_insert_eq. reflexivity.
Qed.

(** ** Content normalizer *)

Lemma is_boilerplate_spec t :
  is_boilerplate t = true <-> len t < 100 /\ matches_phrase t.
Proof.
  unfold is_boilerplate, matches_phrase.
  rewrite andb_true_iff, !orb_true_iff, Z.ltb_lt. tauto.
Qed.

Lemma app_singleton_neq {A} (l : list A) (x : A) : l ++ [x] <> l.
Proof.
  intros H. apply (f_equal length) in H. rewrite length_app in H. simpl in H. lia.
Qed.

Lemma add_block_kept t parts :
  add_block t parts = if kept t then parts ++ [t] else parts.
Proof.
  unfold add_block, kept. destruct (is_boilerplate t), (nonempty t); reflexivity.
Qed.

Lemma collect_blocks_filter blocks : forall parts,
  collect_blocks blocks parts = parts ++ List.filter kept (map get_text_strip blocks).
Proof.
  induction blocks as [|p rest IH]; intros parts; simpl.
  - symmetry. apply app_nil_r.
  - rewrite IH, add_block_kept.
    destruct (kept (get_text_strip p)); [rewrite <- app_assoc|]; reflexivity.
Qed.

(** C5, as stated, fails on a block without text: it matches no phrase, and
    it is dropped all the same. *)
Lemma normalizer_drops_empty_block :
  get_text_strip (paragraph (u8 "  ")) = []
  /\ is_boilerplate (get_text_strip (paragraph (u8 "  "))) = false
  /\ add_block (get_text_strip (paragraph (u8 "  "))) [u8 "a"] = [u8 "a"]
  /\ text_parts_of [paragraph (u8 "a"); paragraph (u8 "  "); paragraph (u8 "b")]
     = [u8 "a"; u8 "b"].
Proof. vm_compute. repeat split; reflexivity. Qed.

(** C5, amended: a block is dropped if and only if its text is empty, or is
    shorter than 100 characters and matches the phrase set; every other block
    is appended, so the parts are the kept texts of the extracted blocks in
    document order.  The short paragraph "Прочитајте повеќе" is excluded, a
    150-character paragraph with the same phrase is included, and so is every
    text of 100 characters or more. *)
Theorem normalizer_block_filter :
  (forall t parts,
      add_block t parts = parts <-> t = [] \/ (len t < 100 /\ matches_phrase t))
  /\ (forall t parts,
      ~ (t = [] \/ (len t < 100 /\ matches_phrase t)) -> add_block t parts = parts ++ [t])
  /\ (forall soup,
      text_parts_of soup = List.filter kept (map get_text_strip (blocks_of soup)))
  /\ (forall t, 100 <= len t -> kept t = true)
  /\ (len (u8 "Прочитајте повеќе") < 100
      /\ clean_soup [paragraph (u8 "Прочитајте повеќе")] = []
      /\ clean_soup [paragraph (u8 "Вест"); paragraph (u8 "Прочитајте повеќе")] = u8 "Вест")
  /\ (len long_paragraph_text = 150
      /\ contains phrase_read_more_mk long_paragraph_text = true
      /\ clean_soup [paragraph long_paragraph_text] = long_paragraph_text).
Proof.
  assert (Hdrop : forall t, kept t = false <-> t = [] \/ (len t < 100 /\ matches_phrase t)).
  { intros t. unfold kept. rewrite <- is_boilerplate_spec.
    destruct (is_boilerplate t), t; simpl; split; intros H; auto; try discriminate.
    destruct H as [H|H]; discriminate. }
  split; [|split; [|split; [|split; [|split]]]].
  - intros t parts. rewrite <- Hdrop, add_block_kept.
    destruct (kept t); split; intros H; try reflexivity; try discriminate.
    destruct (app_singleton_neq _ _ H).
  - intros t parts H. rewrite add_block_kept.
    destruct (kept t) eqn:K; [reflexivity|]. destruct H. apply Hdrop, K.
  - intros soup. unfold text_parts_of, blocks_of. apply collect_blocks_filter.
  - intros t H. unfold kept, is_boilerplate.
    assert ((len t <? 100) = false) as -> by (apply Z.ltb_ge; exact H).
    destruct t; [unfold len in H; simpl in H; lia | reflexivity].
  - vm_compute. repeat split; reflexivity.
  - vm_compute. repeat split; reflexivity.
Qed.

(** ** Harvest loop *)

Lemma bind_ok {A B} (m : result A) (k : A -> result B) (b : B) :
  bind m k = Ok b -> exists a, m = Ok a /\ k a = Ok b.
Proof. destruct m; simpl; intros H; [eauto | discriminate]. Qed.

Ltac conj_split := repeat match goal with |- _ /\ _ => split end.

Ltac bind_inv H :=
  let x := fresh "x" in
  let E := fresh "E" in
  apply bind_ok in H; destruct H as (x & E & H).

Lemma url_keys_app l1 l2 : url_keys (l1 ++ l2) = url_keys l1 ++ url_keys l2.
Proof. apply omap_app. Qed.


Lemma url_set_ok items :
  Forall has_url items -> url_set items = Ok (list_to_set (url_keys items)).
Proof.
  induction 1 as [|a l [k Hk] _ IH]; [reflexivity|].
  unfold url_keys in *. simpl. rewrite Hk. unfold url_key in Hk.
  destruct (getitem a "url") as [u|]; [simpl|discriminate].
  destruct (hash_key u) as [k'|]; [simpl|discriminate].
  injection Hk as ->. rewrite IH. reflexivity.
Qed.

Lemma url_set_inv items s :
  url_set items = Ok s -> Forall has_url items.
Proof.
  revert s. induction items as [|a l IH]; intros s H; [constructor|].
  simpl in H. bind_inv H. bind_inv H. bind_inv H.
  constructor; [|eauto].
  unfold has_url, url_key. rewrite E, E0. eauto.
Qed.

Lemma build_article_url cat post link now a :
  build_article cat post link now = Ok a -> getitem a "url" = Ok link.
Proof.
  unfold build_article. intros H.
  repeat bind_inv H. injection H as <-. reflexivity.
Qed.

(** Whether an article can be built does not depend on the clock. *)
Lemma build_article_clock cat post link now now' :
  match build_article cat post link now with
  | Ok _ => exists a, build_article cat post link now' = Ok a
  | Raise e => build_article cat post link now' = Raise e
  end.
Proof.
  unfold build_article.
  destruct (getitem post "title") as [t|]; simpl; [|reflexivity].
  destruct (getitem t "rendered") as [r|]; simpl; [|reflexivity].
  destruct (html_unescape unescape r) as [ti|]; simpl; [|reflexivity].
  destruct (getitem post "content") as [c|]; simpl; [|reflexivity].
  destruct (getitem c "rendered") as [h|]; simpl; [|reflexivity].
  destruct (clean_html_content h) as [tx|]; simpl; [|reflexivity].
  destruct (py_get post "id") as [i|]; simpl; [|reflexivity].
  eauto.
Qed.

Lemma process_post_ok cat post st st1 :
  process_post cat post st = Ok st1 <-> post_step cat post st st1.
Proof.
  unfold process_post, set_contains, set_add. split.
  - intros H. bind_inv H. bind_inv H. bind_inv E0. injection E0 as <-.
    case_bool_decide as Hin.
    + injection H as <-. eapply post_skipped; eauto.
    + bind_inv H. bind_inv H. bind_inv E2. rewrite E1 in E3. injection E3 as <-.
      injection E2 as <-. injection H as <-. eapply post_added; eauto.
  - intros [link k E1 E2 Hin | link k a E1 E2 Hin E3]; rewrite E1; simpl; rewrite E2; simpl.
    + rewrite bool_decide_eq_true_2 by assumption. reflexivity.
    + rewrite bool_decide_eq_false_2 by assumption. rewrite E3. reflexivity.
Qed.


Lemma extends_refl cat posts st : extends cat posts st st.
Proof.
  exists [], []. rewrite app_nil_r.
  conj_split; auto using sublist_nil_l.
Qed.

Lemma extends_trans cat p1 p2 st st1 st2 :
  extends cat p1 st st1 -> extends cat p2 st1 st2 -> extends cat (p1 ++ p2) st st2.
Proof.
  intros (u1 & a1 & N1 & S1 & B1 & U1 & R1 & G1) (u2 & a2 & N2 & S2 & B2 & U2 & R2 & G2).
  exists (u1 ++ u2), (a1 ++ a2). conj_split.
  - rewrite N2, N1, app_assoc. reflexivity.
  - apply sublist_app; assumption.
  - apply Forall2_app; assumption.
  - etrans; eassumption.
  - etrans; eassumption.
  - auto.
Qed.

Lemma extends_weaken cat p q st st1 :
  sublist p q -> extends cat p st st1 -> extends cat q st st1.
Proof.
  intros Hs (u & a & H1 & H2 & H3). exists u, a. conj_split; try tauto.
  etrans; [apply H2 | exact Hs].
Qed.

Lemma url_key_built cat post link now a k :
  build_article cat post link now = Ok a -> hash_key link = Ok k -> url_key a = Some k.
Proof.
  intros B K. unfold url_key. rewrite (build_article_url _ _ _ _ _ B), K. reflexivity.
Qed.

Lemma post_step_extends cat post st st1 :
  post_step cat post st st1 -> extends cat [post] st st1.
Proof.
  intros [link k E1 E2 Hin | link k a E1 E2 Hin E3].
  - apply extends_refl.
  - exists [post], [a]. simpl. conj_split.
    + reflexivity.
    + reflexivity.
    + constructor; [|constructor]. exists link. eauto.
    + set_solver.
    + reflexivity.
    + intros U0 (F & D & O & E). simpl.
      pose proof (url_key_built _ _ _ _ _ _ E3 E2) as Ka.
      assert (Kapp : url_keys (new_articles st ++ [a]) = url_keys (new_articles st) ++ [k]).
      { rewrite url_keys_app. unfold url_keys at 2. simpl. rewrite Ka. reflexivity. }
      rewrite E in Hin. unfold grown_from. simpl.
      split; [|split; [|split]].
      * apply Forall_app. split; [exact F|]. constructor; [|constructor].
        unfold has_url. rewrite Ka. eauto.
      * rewrite Kapp. apply NoDup_app. conj_split.
        -- exact D.
        -- intros x Hx Hx'. apply list_elem_of_singleton in Hx'. subst x.
           apply Hin. set_solver.
        -- apply NoDup_singleton.
      * rewrite Kapp. intros x Hx. apply elem_of_app in Hx as [Hx|Hx]; [auto|].
        apply list_elem_of_singleton in Hx. subst x. set_solver.
      * rewrite Kapp, E, list_to_set_app_L. simpl. set_solver.
Qed.

Lemma process_posts_extends cat items : forall st st1 r,
  process_posts cat items st = (st1, r) -> extends cat items st st1.
Proof.
  induction items as [|post rest IH]; intros st st1 r H; simpl in H.
  - injection H as <- _. apply extends_refl.
  - destruct (process_post cat post st) as [st'|e] eqn:P.
    + apply (extends_trans cat [post] rest _ st').
      * apply post_step_extends, process_post_ok, P.
      * eapply IH, H.
    + injection H as <- _. apply extends_refl.
Qed.

Lemma process_posts_outside cat items : forall st st1 r,
  process_posts cat items st = (st1, r) ->
  requests_sent (outside st1) = requests_sent (outside st)
  /\ pauses (outside st1) = pauses (outside st).
Proof.
  induction items as [|post rest IH]; intros st st1 r H; simpl in H.
  - injection H as <- _. auto.
  - destruct (process_post cat post st) as [st'|e] eqn:P.
    + apply IH in H as [-> ->].
      apply process_post_ok in P. destruct P; auto.
    + injection H as <- _. auto.
Qed.

(** The point an exception leaves the loop over the posts at: the posts
    before it were handled in full, and what they added is still there. *)
Lemma process_posts_raise cat items : forall st st1 e,
  process_posts cat items st = (st1, Raise e) ->
  exists done failed later,
    items = done ++ failed :: later
    /\ process_posts cat done st = (st1, Ok tt)
    /\ process_post cat failed st1 = Raise e.
Proof.
  induction items as [|post rest IH]; intros st st1 e H; simpl in H; [discriminate|].
  destruct (process_post cat post st) as [st'|e'] eqn:P.
  - apply IH in H as (done & failed & later & -> & D & F).
    exists (post :: done), failed, later. simpl. rewrite P. auto.
  - injection H as <- <-. exists [], post, rest. auto.
Qed.

Lemma same_data_extends cat posts st st1 :
  new_articles st1 = new_articles st ->
  existing_urls st1 = existing_urls st ->
  requests_sent (outside st) `prefix_of` requests_sent (outside st1) ->
  extends cat posts st st1.
Proof.
  intros N U R. exists [], []. rewrite app_nil_r, U. conj_split; auto using sublist_nil_l.
  unfold grown_from. rewrite N, U. auto.
Qed.

Lemma send_request_extends cat posts id page st :
  extends cat posts st (send_request id page st).
Proof. apply same_data_extends; try reflexivity. simpl. apply prefix_app_r. reflexivity. Qed.

Lemma sleep_extends cat posts st : extends cat posts st (sleep st).
Proof. apply same_data_extends; reflexivity. Qed.

Lemma try_page_extends cat id page st st1 r :
  try_page cat id page st = (st1, r) -> extends cat (page_posts id page) st st1.
Proof.
  unfold try_page, page_posts. intros H.
  pose proof (send_request_extends cat [] id page st) as S0.
  assert (Hsend : forall q, extends cat q st (send_request id page st))
    by (intros q; apply send_request_extends).
  destruct (remote id page) as [|status body]; [injection H as <- _; apply Hsend|].
  destruct (status =? 400); [injection H as <- _; apply Hsend|].
  destruct ((400 <=? status) && (status <? 600)); [injection H as <- _; apply Hsend|].
  destruct body as [posts|]; [|injection H as <- _; apply Hsend].
  destruct (negb (truthy posts)); [injection H as <- _; apply Hsend|].
  destruct (py_iter posts) as [items|e]; [|injection H as <- _; apply Hsend].
  destruct (process_posts cat items (send_request id page st)) as [st' r'] eqn:P.
  apply process_posts_extends in P.
  assert (X : extends cat items st st').
  { change items with ([] ++ items). eapply extends_trans; eassumption. }
  destruct r'; injection H as <- _; [|exact X].
  rewrite <- (app_nil_r items). eapply extends_trans; [exact X | apply sleep_extends].
Qed.

Lemma page_step_extends cat id page st st1 f :
  page_step cat id page st = (st1, f) -> extends cat (page_posts id page) st st1.
Proof.
  unfold page_step. destruct (try_page cat id page st) as [st' r] eqn:T.
  apply try_page_extends in T. destruct r; intros H; injection H as <- _; exact T.
Qed.

Lemma paginate_extends cat id pages : forall st,
  extends cat (flat_map (page_posts id) pages) st (paginate cat id pages st).
Proof.
  induction pages as [|page rest IH]; intros st; simpl.
  - apply extends_refl.
  - destruct (page_step cat id page st) as [st1 f] eqn:P.
    apply page_step_extends in P. destruct f.
    + eapply extends_trans; [exact P | apply IH].
    + rewrite <- (app_nil_r (page_posts id page)) in P.
      eapply extends_weaken; [|exact P].
      apply sublist_app; [reflexivity | apply sublist_nil_l].
Qed.

Lemma grown_from_start U0 w :
  grown_from U0 {| new_articles := []; existing_urls := U0; outside := w |}.
Proof.
  unfold grown_from. simpl. conj_split.
  - constructor.
  - constructor.
  - intros k Hk. inversion Hk.
  - set_solver.
Qed.

(** On a stored list of items that have a url, [fetch_category_posts]
    returns: the stored items followed by what the page loop collected. *)
Lemma fetch_category_posts_returns cat id file fs w existing :
  load_data fs file = Ok (JList existing) ->
  Forall has_url existing ->
  fetch_category_posts cat id file fs w =
    Ok (JList (existing ++
          new_articles (paginate cat id page_range
            {| new_articles := []; existing_urls := list_to_set (url_keys existing);
               outside := w |})),
        length (new_articles (paginate cat id page_range
            {| new_articles := []; existing_urls := list_to_set (url_keys existing);
               outside := w |})),
        outside (paginate cat id page_range
            {| new_articles := []; existing_urls := list_to_set (url_keys existing);
               outside := w |})).
Proof.
  intros L F. unfold fetch_category_posts. rewrite L. cbn [bind py_iter].
  rewrite (url_set_ok _ F). reflexivity.
Qed.

(** Conversely, when it returns, the stored value was such a list. *)
Lemma fetch_category_posts_inv cat id file fs w data n w1 :
  fetch_category_posts cat id file fs w = Ok (data, n, w1) ->
  exists existing, load_data fs file = Ok (JList existing) /\ Forall has_url existing.
Proof.
  unfold fetch_category_posts. intros H.
  bind_inv H. bind_inv H. bind_inv H. bind_inv H. bind_inv H.
  destruct x as [| | | |l|]; try discriminate.
  simpl in E0. injection E0 as <-.
  exists l. split; [exact E | eapply url_set_inv; exact E1].
Qed.

Lemma sublist_elem {A} (l1 l2 : list A) (x : A) : sublist l1 l2 -> x ∈ l1 -> x ∈ l2.
Proof.
  induction 1 as [|y l1 l2 _ IH|y l1 l2 _ IH]; intros Hx.
  - exact Hx.
  - apply elem_of_cons in Hx as [->|Hx]; [left | right; auto].
  - right. auto.
Qed.

Lemma elem_of_flat_map {A B} (f : A -> list B) (l : list A) (y : B) :
  y ∈ flat_map f l <-> exists x, x ∈ l /\ y ∈ f x.
Proof.
  rewrite list_elem_of_In, in_flat_map.
  split; intros (x & H1 & H2); exists x; split;
    first [apply list_elem_of_In; assumption | apply list_elem_of_In; assumption].
Qed.

Lemma Forall2_elem_r {A B} (R : A -> B -> Prop) l1 l2 y :
  Forall2 R l1 l2 -> y ∈ l2 -> exists x, x ∈ l1 /\ R x y.
Proof.
  induction 1 as [|x y' l1 l2 HR _ IH]; intros Hy; [inversion Hy|].
  apply elem_of_cons in Hy as [->|Hy].
  - exists x. split; [left | exact HR].
  - destruct (IH Hy) as (x' & Hx' & HR'). exists x'. split; [right|]; assumption.
Qed.

(** What a run of the page loop from the stored urls adds. *)
Lemma paginate_from_store cat id pages existing w :
  exists used added,
    new_articles (paginate cat id pages
       {| new_articles := []; existing_urls := list_to_set (url_keys existing);
          outside := w |}) = added
    /\ sublist used (flat_map (page_posts id) pages)
    /\ Forall2 (built_from cat) used added
    /\ Forall has_url added
    /\ NoDup (url_keys added)
    /\ (forall k, k ∈ url_keys added -> k ∉ url_keys existing).
Proof.
  destruct (paginate_extends cat id pages
    {| new_articles := []; existing_urls := list_to_set (url_keys existing); outside := w |})
    as (used & added & N & S & B & _ & _ & G).
  destruct (G _ (grown_from_start _ w)) as (F & D & O & _).
  cbn [new_articles app] in N. rewrite N in *. exists used, added. conj_split; auto.
  intros k Hk Hk'. apply (O k Hk). apply elem_of_list_to_set, Hk'.
Qed.

(** C8: the returned collection is the loaded one, item for item and in its
    order, followed by the new articles; these are built from posts of the
    fetched pages, taken in page order and, within a page, in the order of
    the response.  Nothing here depends on what the remote says about a url
    that is already stored. *)
Theorem harvest_appends_in_fetch_order cat id file fs w existing :
  load_data fs file = Ok (JList existing) ->
  Forall has_url existing ->
  exists added used w1,
    fetch_category_posts cat id file fs w
      = Ok (JList (existing ++ added), length added, w1)
    /\ sublist used (flat_map (page_posts id) page_range)
    /\ Forall2 (built_from cat) used added.
Proof.
  intros L F. rewrite (fetch_category_posts_returns _ _ _ _ _ _ L F).
  destruct (paginate_from_store cat id page_range existing w) as (used & added & N & S & B & _).
  rewrite N. exists added, used. eexists. eauto.
Qed.

(** C2, amended: on a stored collection with pairwise-distinct urls the
    returned collection has pairwise-distinct urls, whatever the pages
    repeat.  Every new article carries the link of its post for a url, so the
    urls are non-empty strings when those of the stored collection and the
    links of the fetched posts are. *)
Theorem harvest_urls_distinct cat id file fs w existing :
  load_data fs file = Ok (JList existing) ->
  Forall has_url existing ->
  NoDup (url_keys existing) ->
  exists coll n w1,
    fetch_category_posts cat id file fs w = Ok (JList coll, n, w1)
    /\ Forall has_url coll
    /\ NoDup (url_keys coll)
    /\ (Forall nonempty_url existing ->
        (forall page post, post ∈ page_posts id page -> nonempty_link post) ->
        Forall nonempty_url coll).
Proof.
  intros L F D. rewrite (fetch_category_posts_returns _ _ _ _ _ _ L F).
  destruct (paginate_from_store cat id page_range existing w) as (used & added & N & S & B & Fa & Da & O).
  rewrite N. do 3 eexists. conj_split; [reflexivity| | |].
  - apply Forall_app; auto.
  - rewrite url_keys_app. apply NoDup_app. conj_split; auto.
    intros k Hk Hk'. exact (O k Hk' Hk).
  - intros Ne Hl. apply Forall_app. split; [exact Ne|].
    apply Forall_forall. intros a Ha.
    destruct (Forall2_elem_r _ _ _ _ B Ha) as (post & Hp & (link & now & Lk & Bd)).
    apply (sublist_elem _ _ _ S) in Hp.
    apply elem_of_flat_map in Hp as (page & _ & Hp).
    destruct (Hl page post Hp) as (s & Ls & Hs).
    exists s. split; [|exact Hs].
    rewrite (build_article_url _ _ _ _ _ Bd). congruence.
Qed.

(** *** A second run over the same pages *)

Lemma extends_urls cat posts st st1 :
  extends cat posts st st1 -> existing_urls st ⊆ existing_urls st1.
Proof. intros (u & a & _ & _ & _ & U & _). exact U. Qed.

(** A post that went through is skipped once its url is known. *)
Lemma replay_post cat post s s1 t :
  process_post cat post s = Ok s1 ->
  existing_urls s1 ⊆ existing_urls t ->
  process_post cat post t = Ok t.
Proof.
  intros P U. apply process_post_ok in P. apply process_post_ok.
  destruct P as [link k E1 E2 Hin | link k a E1 E2 Hin E3].
  - eapply post_skipped; eauto.
  - eapply post_skipped; eauto. apply U. simpl. set_solver.
Qed.

(** A post that raised raises again as long as the urls are the same. *)
Lemma replay_post_raise cat post s e t :
  process_post cat post s = Raise e ->
  existing_urls t = existing_urls s ->
  process_post cat post t = Raise e.
Proof.
  unfold process_post, set_contains, set_add. intros P U. rewrite U.
  destruct (py_get post "link") as [link|]; simpl in *; [|exact P].
  destruct (hash_key link) as [k|]; simpl in *; [|exact P].
  destruct (bool_decide (k ∈ existing_urls s)); [discriminate|].
  pose proof (build_article_clock cat post link
                (isoformat_now (clock (outside s))) (isoformat_now (clock (outside t)))) as C.
  destruct (build_article cat post link (isoformat_now (clock (outside s)))) as [a|e'];
    simpl in P; [discriminate|].
  injection P as ->. rewrite C. reflexivity.
Qed.

Lemma replay_posts cat items : forall s s1 r t,
  process_posts cat items s = (s1, r) ->
  match r with
  | Ok _ => existing_urls s1 ⊆ existing_urls t
  | Raise _ => existing_urls t = existing_urls s1
  end ->
  process_posts cat items t = (t, r).
Proof.
  induction items as [|post rest IH]; intros s s1 r t H U; simpl in *.
  - injection H as <- <-. reflexivity.
  - destruct (process_post cat post s) as [s'|e] eqn:P.
    + assert (S1 : existing_urls s' ⊆ existing_urls t).
      { pose proof (extends_urls _ _ _ _ (process_posts_extends _ _ _ _ _ H)) as M.
        destruct r; [set_solver | rewrite U; exact M]. }
      rewrite (replay_post _ _ _ _ _ P S1). eapply IH; eassumption.
    + injection H as <- <-. rewrite (replay_post_raise _ _ _ _ _ P U). reflexivity.
Qed.

Lemma replay_page cat id page s s1 f t :
  page_step cat id page s = (s1, f) ->
  match f with
  | Continue => existing_urls s1 ⊆ existing_urls t
  | Break => existing_urls t = existing_urls s1
  end ->
  exists t1, page_step cat id page t = (t1, f)
    /\ new_articles t1 = new_articles t
    /\ existing_urls t1 = existing_urls t.
Proof.
  unfold page_step, try_page. intros H U.
  destruct (remote id page) as [|status body];
    [injection H as <- <-; eexists; simpl; eauto|].
  destruct (status =? 400); [injection H as <- <-; eexists; simpl; eauto|].
  destruct ((400 <=? status) && (status <? 600));
    [injection H as <- <-; eexists; simpl; eauto|].
  destruct body as [posts|]; [|injection H as <- <-; eexists; simpl; eauto].
  destruct (negb (truthy posts)); [injection H as <- <-; eexists; simpl; eauto|].
  destruct (py_iter posts) as [items|e]; [|injection H as <- <-; eexists; simpl; eauto].
  destruct (process_posts cat items (send_request id page s)) as [s' r] eqn:P.
  assert (R : process_posts cat items (send_request id page t)
              = (send_request id page t, r)).
  { eapply replay_posts; [exact P|].
    destruct r; injection H as <- <-; simpl in *; exact U. }
  rewrite R. destruct r; injection H as <- <-; eexists; simpl; eauto.
Qed.

Lemma replay_paginate cat id pages : forall s t,
  existing_urls t = existing_urls (paginate cat id pages s) ->
  new_articles (paginate cat id pages t) = new_articles t
  /\ existing_urls (paginate cat id pages t) = existing_urls t.
Proof.
  induction pages as [|page rest IH]; intros s t U; simpl in *; [auto|].
  destruct (page_step cat id page s) as [s1 f] eqn:P. destruct f.
  - destruct (replay_page _ _ _ _ _ _ t P) as (t1 & -> & N1 & U1).
    { rewrite U. eapply extends_urls. apply paginate_extends. }
    destruct (IH s1 t1) as [N2 U2]; [congruence|].
    rewrite N2, U2. auto.
  - destruct (replay_page _ _ _ _ _ _ t P U) as (t1 & -> & N1 & U1). auto.
Qed.

Lemma second_run_adds_nothing cat id pages existing w w2 :
  new_articles (paginate cat id pages
    {| new_articles := [];
       existing_urls :=
         list_to_set (url_keys (existing ++
           new_articles (paginate cat id pages
             {| new_articles := []; existing_urls := list_to_set (url_keys existing);
                outside := w |})));
       outside := w2 |}) = [].
Proof.
  set (s0 := {| new_articles := []; existing_urls := list_to_set (url_keys existing);
                outside := w |}).
  destruct (paginate_extends cat id pages s0) as (used & added & N & _ & _ & _ & _ & G).
  destruct (G _ (grown_from_start _ w)) as (_ & _ & _ & E).
  match goal with |- new_articles (paginate _ _ _ ?t) = _ =>
    destruct (replay_paginate cat id pages s0 t) as [N0 _]; [|exact N0] end.
  cbn [existing_urls]. rewrite E, url_keys_app, list_to_set_app_L. set_solver.
Qed.

(** C1: when a run returns a collection and the next run loads that
    collection, against the same remote, the next run adds nothing: it
    returns the same collection and a count of zero. *)
Theorem harvest_idempotent cat id file fs w data n w1 fs1 w2 :
  fetch_category_posts cat id file fs w = Ok (data, n, w1) ->
  load_data fs1 file = Ok data ->
  exists w3, fetch_category_posts cat id file fs1 w2 = Ok (data, 0%nat, w3).
Proof.
  intros R1 L1.
  destruct (fetch_category_posts_inv _ _ _ _ _ _ _ _ R1) as (existing & L & F).
  rewrite (fetch_category_posts_returns _ _ _ _ _ _ L F) in R1.
  destruct (paginate_from_store cat id page_range existing w)
    as (used & added & N & _ & _ & Fa & _).
  pose proof (second_run_adds_nothing cat id page_range existing w w2) as Z.
  remember (paginate cat id page_range
             {| new_articles := []; existing_urls := list_to_set (url_keys existing);
                outside := w |}) as st eqn:Est.
  assert (D : data = JList (existing ++ new_articles st)) by congruence.
  subst data.
  assert (F1 : Forall has_url (existing ++ new_articles st))
    by (rewrite N; apply Forall_app; auto).
  rewrite (fetch_category_posts_returns _ _ _ _ _ _ L1 F1).
  rewrite Z, app_nil_r. eauto.
Qed.

(** *** Pagination *)



Lemma status_ok_tests status :
  status_ok status ->
  (status =? 400) = false /\ ((400 <=? status) && (status <? 600)) = false.
Proof.
  unfold status_ok. intros H. split.
  - apply Z.eqb_neq. lia.
  - apply andb_false_iff. rewrite Z.leb_gt, Z.ltb_ge. lia.
Qed.



Lemma page_range_head : page_range = 1 :: 2 :: 3 :: 4 :: seqZ 5 9995.
Proof. vm_compute. reflexivity. Qed.



(** *** When the harvest returns, and when it raises *)

Lemma url_set_raises items :
  ~ Forall has_url items -> exists e, url_set items = Raise e.
Proof.
  induction items as [|a l IH]; intros H; [destruct H; constructor|].
  cbn [url_set]. destruct (getitem a "url") as [u|e] eqn:G; [|cbn [bind]; eauto].
  cbn [bind]. destruct (hash_key u) as [k|e] eqn:K; [|cbn [bind]; eauto].
  cbn [bind]. destruct (url_set l) as [s|e] eqn:U; [|cbn [bind]; eauto].
  destruct H. constructor; [|eapply url_set_inv; exact U].
  unfold has_url, url_key. rewrite G, K. eauto.
Qed.

(** [fetch_category_posts] returns exactly when the stored value is a list
    whose items all have a hashable ['url']; on anything else it raises,
    whatever the remote answers. *)
Theorem fetch_category_posts_returns_iff cat id file fs w :
  (exists r, fetch_category_posts cat id file fs w = Ok r)
  <-> (exists items, load_data fs file = Ok (JList items) /\ Forall has_url items).
Proof.
  split.
  - intros [[[data n] w1] R]. eapply fetch_category_posts_inv, R.
  - intros (items & L & F). rewrite (fetch_category_posts_returns _ _ _ _ _ _ L F). eauto.
Qed.

(** *** One failing page *)

Lemma process_posts_app cat done : forall later st st1,
  process_posts cat done st = (st1, Ok tt) ->
  process_posts cat (done ++ later) st = process_posts cat later st1.
Proof.
  induction done as [|post rest IH]; intros later st st1 H; simpl in *.
  - injection H as <-. reflexivity.
  - destruct (process_post cat post st) as [st'|e]; [eauto|discriminate].
Qed.

(** A post that raises ends the pagination of its category at once: the
    posts before it on the page were handled in full and what they added is
    kept, the rest of the page is not looked at, and no later page is
    requested. *)
Theorem failing_post_stops_category cat id page rest st status posts done failed later st1 e :
  remote id page = Response status (Some posts) ->
  status_ok status ->
  py_iter posts = Ok (done ++ failed :: later) ->
  process_posts cat done (send_request id page st) = (st1, Ok tt) ->
  process_post cat failed st1 = Raise e ->
  paginate cat id (page :: rest) st = st1
  /\ requests_sent (outside st1) = requests_sent (outside st) ++ [(id, page)]
  /\ pauses (outside st1) = pauses (outside st)
  /\ exists used added,
       new_articles st1 = new_articles st ++ added
       /\ sublist used done
       /\ Forall2 (built_from cat) used added.
Proof.
  intros R S I D P.
  assert (T : truthy posts = true).
  { destruct posts as [| | |s|l|d]; try discriminate; simpl in I;
      injection I as I; [destruct s | destruct l | destruct d]; try reflexivity;
      destruct done; discriminate. }
  split; [|split; [|split]].
  - cbn [paginate]. unfold page_step, try_page. rewrite R.
    destruct (status_ok_tests _ S) as [-> ->]. rewrite T, I. cbn [negb].
    rewrite (process_posts_app _ _ _ _ _ D). cbn [process_posts]. rewrite P. reflexivity.
  - destruct (process_posts_outside _ _ _ _ _ D) as [-> _]. reflexivity.
  - destruct (process_posts_outside _ _ _ _ _ D) as [_ ->]. reflexivity.
  - destruct (process_posts_extends _ _ _ _ _ D) as (used & added & N & Su & B & _).
    exists used, added. auto.
Qed.

(** *** The requests a run sends *)

Lemma take_seqZ m n (k : nat) :
  Z.of_nat k <= n -> take k (seqZ m n) = seqZ m (Z.of_nat k).
Proof.
  intros H. replace n with (Z.of_nat k + (n - Z.of_nat k)) by lia.
  rewrite seqZ_app by lia. apply take_app_length'. rewrite length_seqZ. lia.
Qed.

Lemma page_step_outside cat id page st st1 f :
  page_step cat id page st = (st1, f) ->
  requests_sent (outside st1) = requests_sent (outside st) ++ [(id, page)]
  /\ pauses (outside st1)
     = (pauses (outside st) + match f with Continue => 1 | Break => 0 end)%nat.
Proof.
  unfold page_step, try_page. intros H.
  destruct (remote id page) as [|status body];
    [injection H as <- <-; simpl; auto with lia|].
  destruct (status =? 400); [injection H as <- <-; simpl; auto with lia|].
  destruct ((400 <=? status) && (status <? 600));
    [injection H as <- <-; simpl; auto with lia|].
  destruct body as [posts|]; [|injection H as <- <-; simpl; auto with lia].
  destruct (negb (truthy posts)); [injection H as <- <-; simpl; auto with lia|].
  destruct (py_iter posts) as [items|e]; [|injection H as <- <-; simpl; auto with lia].
  destruct (process_posts cat items (send_request id page st)) as [s' r] eqn:P.
  destruct (process_posts_outside _ _ _ _ _ P) as [Q1 Q2].
  destruct r; injection H as <- <-; simpl in *; rewrite Q1, Q2; auto with lia.
Qed.

(** The loop asks for a prefix of its pages, one request a page, without
    gaps; it pauses after every page but the last one asked for, and after
    that one too when the pages run out. *)
Lemma paginate_outside cat id pages : forall st,
  exists k : nat,
    (k <= length pages)%nat
    /\ (pages <> [] -> (1 <= k)%nat)
    /\ requests_sent (outside (paginate cat id pages st))
       = requests_sent (outside st) ++ map (pair id) (take k pages)
    /\ (pauses (outside st) + k - 1 <= pauses (outside (paginate cat id pages st))
        <= pauses (outside st) + k)%nat.
Proof.
  induction pages as [|page rest IH]; intros st.
  - exists 0%nat. simpl. rewrite app_nil_r. split_and!; auto with lia. congruence.
  - cbn [paginate]. destruct (page_step cat id page st) as [st1 f] eqn:P.
    destruct (page_step_outside _ _ _ _ _ _ P) as [Q1 Q2]. destruct f.
    + destruct (IH st1) as (k & K1 & _ & K3 & K4). exists (S k).
      split_and!; simpl; try lia.
      rewrite K3, Q1, <- app_assoc. reflexivity.
    + exists 1%nat. split_and!; simpl; try lia. exact Q1.
Qed.

Lemma paginate_range_outside cat id st :
  exists k : nat,
    1 <= Z.of_nat k <= MAX_PAGES_PER_CATEGORY
    /\ requests_sent (outside (paginate cat id page_range st))
       = requests_sent (outside st) ++ map (pair id) (seqZ 1 (Z.of_nat k))
    /\ (pauses (outside st) + k - 1 <= pauses (outside (paginate cat id page_range st))
        <= pauses (outside st) + k)%nat.
Proof.
  destruct (paginate_outside cat id page_range st) as (k & K1 & K2 & K3 & K4).
  unfold page_range in K1, K2, K3. rewrite length_seqZ in K1.
  unfold MAX_PAGES_PER_CATEGORY in *.
  exists k. split; [|split].
  - split; [|lia]. assert (1 <= k)%nat; [|lia]. apply K2.
    rewrite seqZ_cons by lia. discriminate.
  - unfold page_range, MAX_PAGES_PER_CATEGORY. rewrite K3, take_seqZ by lia. reflexivity.
  - exact K4.
Qed.

(** A run that returns has asked for pages 1 to k of its category, in this
    order, for some k between 1 and [MAX_PAGES_PER_CATEGORY], and paused k - 1
    or k times. *)
Theorem requests_are_consecutive_pages cat id file fs w data n w1 :
  fetch_category_posts cat id file fs w = Ok (data, n, w1) ->
  exists k : nat,
    1 <= Z.of_nat k <= MAX_PAGES_PER_CATEGORY
    /\ requests_sent w1 = requests_sent w ++ map (pair id) (seqZ 1 (Z.of_nat k))
    /\ (pauses w + k - 1 <= pauses w1 <= pauses w + k)%nat.
Proof.
  intros R.
  destruct (fetch_category_posts_inv _ _ _ _ _ _ _ _ R) as (existing & L & F).
  rewrite (fetch_category_posts_returns _ _ _ _ _ _ L F) in R.
  pose proof (paginate_range_outside cat id
                {| new_articles := []; existing_urls := list_to_set (url_keys existing);
                   outside := w |}) as K.
  remember (paginate cat id page_range
              {| new_articles := []; existing_urls := list_to_set (url_keys existing);
                 outside := w |}) as st eqn:Est.
  assert (W : w1 = outside st) by congruence. subst w1. exact K.
Qed.

(** *** The run over the catalog *)









(** A save that fails ends the run as well, after the category was
    harvested: its file is left without a JSON document, the other files are
    as they were, and the categories after it are not reached. *)
Theorem harvest_all_aborts_on_failed_save fault_at name id rest fs w :
  store_ok fs (get_category_file name) ->
  fault_at (get_category_file name) = FailsDuringDump ->
  exists fs1 w1 e,
    harvest_all fault_at ((name, id) :: rest) fs w = (fs1, w1, Raise e)
    /\ stored fs1 (get_category_file name) = None
    /\ load_data fs1 (get_category_file name) = Ok (JList [])
    /\ (forall p, p <> get_category_file name -> fs1 !! p = fs !! p)
    /\ exists sent, requests_sent w1 = requests_sent w ++ (id, 1) :: sent.
Proof.
  intros [Wr (old & L & F)] Ft. cbn [harvest_all].
  rewrite (fetch_category_posts_returns name id _ _ w _ L F), Ft.
  destruct (paginate_range_outside name id
              {| new_articles := []; existing_urls := list_to_set (url_keys old);
                 outside := w |}) as (k & [K1 _] & K2 & _).
  cbn [outside requests_sent] in K2.
  unfold save_data, open_write, json_dump.
  assert (Rq : exists sent,
             map (pair id) (seqZ 1 (Z.of_nat k)) = (id, 1) :: sent).
  { rewrite seqZ_cons by lia. simpl. eauto. }
  destruct Rq as [sent Rq]. rewrite Rq in K2.
  destruct (fs !! get_category_file name) as [f|] eqn:E.
  - rewrite (Wr f eq_refl). do 3 eexists. split; [reflexivity|]. split_and!.
    + unfold stored. rewrite lookup_insert_eq. reflexivity.
    + erewrite load_data_present by apply lookup_insert_eq.
      simpl. destruct (readable f); reflexivity.
    + intros p Hp. rewrite lookup_insert_ne by congruence. reflexivity.
    + eauto.
  - do 3 eexists. split; [reflexivity|]. split_and!.
    + unfold stored. rewrite lookup_insert_eq. reflexivity.
    + erewrite load_data_present by apply lookup_insert_eq. reflexivity.
    + intros p Hp. rewrite lookup_insert_ne by congruence. reflexivity.
    + eauto.
Qed.

(** *** A first page that cannot be used *)

Lemma process_posts_not_objects cat (s : pystr) rest st :
  exists e, process_posts cat (JStr s :: rest) st = (st, Raise e).
Proof. eexists. reflexivity. Qed.

Lemma page_step_unusable cat id page st :
  ~ (exists status posts,
       remote id page = Response status (Some (JList posts))
       /\ status_ok status /\ posts <> []) ->
  page_step cat id page st = (send_request id page st, Break).
Proof.
  intros H. unfold page_step, try_page.
  destruct (remote id page) as [|status body] eqn:R; [reflexivity|].
  destruct (status =? 400) eqn:S4; [reflexivity|].
  destruct ((400 <=? status) && (status <? 600)) eqn:S5; [reflexivity|].
  assert (S : status_ok status).
  { apply andb_false_iff in S5. rewrite Z.leb_gt, Z.ltb_ge in S5. unfold status_ok. lia. }
  destruct body as [posts|]; [|reflexivity].
  destruct posts as [|b|z|s|l|d]; cbn [truthy negb py_iter]; try reflexivity.
  - destruct b; reflexivity.
  - destruct (negb (z =? 0)); reflexivity.
  - destruct s as [|c s]; reflexivity.
  - destruct l as [|a l]; [reflexivity|].
    destruct H. exists status, (a :: l). split; [reflexivity|]. split; [exact S|discriminate].
  - destruct d as [|kv d]; reflexivity.
Qed.

(** When page 1 gives nothing to work on (no response, status 400, an error
    status, a body that is not JSON, or JSON that is not a non-empty list), the
    stored collection is returned as it is, with a count of 0, after this one
    request and without a pause. *)
Theorem unusable_first_page_changes_nothing cat id file fs w existing :
  load_data fs file = Ok (JList existing) ->
  Forall has_url existing ->
  ~ (exists status posts,
       remote id 1 = Response status (Some (JList posts))
       /\ status_ok status /\ posts <> []) ->
  fetch_category_posts cat id file fs w
  = Ok (JList existing, 0%nat,
        {| requests_sent := requests_sent w ++ [(id, 1)];
           clock := clock w; pauses := pauses w |}).
Proof.
  intros L F H. rewrite (fetch_category_posts_returns _ _ _ _ _ _ L F).
  rewrite page_range_head. cbn [paginate].
  rewrite (page_step_unusable _ _ _ _ H). cbn. rewrite app_nil_r. reflexivity.
Qed.

End Scraper.

(** * Corpus merger *)

Lemma first_seen_keys items : forall seen,
  Forall (fun a => is_Some (merge_key a)) (first_seen seen items)
  /\ NoDup (omap merge_key (first_seen seen items))
  /\ (forall k, k ∈ omap merge_key (first_seen seen items) -> k ∉ seen)
  /\ list_to_set (omap merge_key (first_seen seen items)) ∪ seen
     = list_to_set (omap merge_key items) ∪ seen.
Proof.
  induction items as [|a rest IH]; intros seen; simpl.
  - split_and!; [constructor | constructor | intros k H; inversion H | reflexivity].
  - destruct (merge_key a) as [k|] eqn:MK; [|apply IH].
    destruct (decide (k ∈ seen)) as [Hin|Hin].
    + destruct (IH seen) as (F & D & O & E). split_and!; auto.
      rewrite E. set_solver.
    + destruct (IH ({[k]} ∪ seen)) as (F & D & O & E). simpl. rewrite MK.
      split_and!.
      * constructor; [rewrite MK; eauto | exact F].
      * constructor; [|exact D]. intros Hk. apply O in Hk. set_solver.
      * intros k' Hk'. apply elem_of_cons in Hk' as [->|Hk']; [exact Hin|].
        apply O in Hk'. set_solver.
      * simpl. apply set_eq. intros x.
        assert (Ex : x ∈ list_to_set (omap merge_key (first_seen ({[k]} ∪ seen) rest))
                          ∪ ({[k]} ∪ seen)
                     <-> x ∈ list_to_set (omap merge_key rest) ∪ ({[k]} ∪ seen))
          by (rewrite E; reflexivity).
        rewrite !elem_of_union, !elem_of_list_to_set, elem_of_singleton in Ex.
        rewrite !elem_of_union, !elem_of_singleton, !elem_of_list_to_set. tauto.
Qed.

Lemma omap_cons_key a rest :
  omap merge_key (a :: rest)
  = match merge_key a with
    | Some k => k :: omap merge_key rest
    | None => omap merge_key rest
    end.
Proof. reflexivity. Qed.

Lemma first_seen_length_le items : forall seen,
  (length (first_seen seen items) <= length (omap merge_key items))%nat.
Proof.
  induction items as [|a rest IH]; intros seen; [simpl; lia|].
  rewrite omap_cons_key. cbn [first_seen].
  destruct (merge_key a) as [k|]; [|apply IH].
  destruct (decide (k ∈ seen));
    [pose proof (IH seen) | pose proof (IH ({[k]} ∪ seen))]; cbn [length]; lia.
Qed.

Lemma first_seen_app l1 : forall l2 seen,
  first_seen seen (l1 ++ l2)
  = first_seen seen l1 ++ first_seen (list_to_set (omap merge_key l1) ∪ seen) l2.
Proof.
  induction l1 as [|a rest IH]; intros l2 seen.
  - simpl. f_equal. set_solver.
  - rewrite omap_cons_key. cbn [app first_seen].
    destruct (merge_key a) as [k|] eqn:MK; [|apply IH].
    destruct (decide (k ∈ seen)) as [Hin|Hin]; rewrite IH; cbn [app];
      repeat (match goal with
              | |- _ :: _ = _ :: _ => f_equal
              | |- _ ++ _ = _ ++ _ => f_equal
              end);
      apply (f_equal (fun s => first_seen s l2));
      rewrite list_to_set_cons; set_solver.
Qed.

(** The article kept for a key is the first one of the list with this key. *)
Lemma find_first_seen k items : forall seen,
  List.find (with_key k) (first_seen seen items)
  = if decide (k ∈ seen) then None else List.find (with_key k) items.
Proof.
  induction items as [|a rest IH]; intros seen; simpl.
  - destruct (decide (k ∈ seen)); reflexivity.
  - destruct (merge_key a) as [k'|] eqn:MK.
    + destruct (decide (k' ∈ seen)) as [Hin|Hin].
      * rewrite IH. destruct (decide (k ∈ seen)) as [H|H]; [reflexivity|].
        unfold with_key at 2. rewrite MK.
        rewrite bool_decide_eq_false_2; [reflexivity|]. intros E. injection E as ->. auto.
      * simpl. unfold with_key at 1 3. rewrite MK. case_bool_decide as E.
        -- injection E as ->. destruct (decide (k ∈ seen)); [contradiction|reflexivity].
        -- rewrite IH. destruct (decide (k ∈ {[k']} ∪ seen)) as [H|H];
             destruct (decide (k ∈ seen)) as [H'|H']; try reflexivity; set_solver.
    + rewrite IH. unfold with_key at 2. rewrite MK.
      rewrite bool_decide_eq_false_2 by discriminate. reflexivity.
Qed.

(** One pass of the loop over the articles of a file, when every article is
    one the loop body gets through. *)
Lemma add_articles_spec items : forall st n,
  Forall (fun a => mergeable a = true) items ->
  exists st',
    Consolidate.add_articles items st n
      = (st', (n + length (first_seen (Consolidate.seen_urls st) items))%nat, Ok tt)
    /\ Consolidate.all_articles st'
       = Consolidate.all_articles st ++ first_seen (Consolidate.seen_urls st) items
    /\ Consolidate.seen_urls st'
       = list_to_set (omap merge_key items) ∪ Consolidate.seen_urls st
    /\ Consolidate.category_counts st' = Consolidate.category_counts st
    /\ (Consolidate.duplicate_count st' + length (first_seen (Consolidate.seen_urls st) items)
        = Consolidate.duplicate_count st + length (omap merge_key items))%nat.
Proof.
  induction items as [|a rest IH]; intros st n F.
  - exists st. cbn. rewrite app_nil_r, Nat.add_0_r.
    split_and!; first [reflexivity | set_solver | lia].
  - apply Forall_cons in F as [Ma F].
    rewrite omap_cons_key. cbn [Consolidate.add_articles first_seen].
    unfold Consolidate.add_article. unfold mergeable in Ma.
    destruct (py_get a "url") as [url|] eqn:G; [|discriminate]. cbn [bind].
    destruct (truthy url) eqn:T.
    + destruct (hash_key url) as [k|] eqn:K; [|discriminate].
      assert (MK : merge_key a = Some k) by (unfold merge_key; rewrite G, T, K; reflexivity).
      rewrite MK. unfold set_contains, set_add. rewrite K. cbn [bind].
      destruct (decide (k ∈ Consolidate.seen_urls st)) as [Hin|Hin].
      * rewrite bool_decide_eq_true_2 by exact Hin. cbn [negb].
        destruct (IH {| Consolidate.all_articles := Consolidate.all_articles st;
                        Consolidate.seen_urls := Consolidate.seen_urls st;
                        Consolidate.category_counts := Consolidate.category_counts st;
                        Consolidate.duplicate_count := S (Consolidate.duplicate_count st) |}
                     n F) as (st' & R & A & S & C & D).
        cbn [Consolidate.all_articles Consolidate.seen_urls Consolidate.category_counts
             Consolidate.duplicate_count] in *.
        exists st'. rewrite R. split_and!; auto.
        -- rewrite S, list_to_set_cons. clear -Hin. set_solver.
        -- cbn [length]. lia.
      * rewrite bool_decide_eq_false_2 by exact Hin. cbn [negb bind].
        destruct (IH {| Consolidate.all_articles := Consolidate.all_articles st ++ [a];
                        Consolidate.seen_urls := {[k]} ∪ Consolidate.seen_urls st;
                        Consolidate.category_counts := Consolidate.category_counts st;
                        Consolidate.duplicate_count := Consolidate.duplicate_count st |}
                     (S n) F) as (st' & R & A & S & C & D).
        cbn [Consolidate.all_articles Consolidate.seen_urls Consolidate.category_counts
             Consolidate.duplicate_count] in *.
        exists st'. rewrite R. cbn [length]. split_and!; auto.
        -- do 2 f_equal. lia.
        -- rewrite A, <- app_assoc. reflexivity.
        -- rewrite S, list_to_set_cons. clear. set_solver.
        -- lia.
    + assert (MK : merge_key a = None) by (unfold merge_key; rewrite G, T; reflexivity).
      rewrite MK. apply IH, F.
Qed.

(** The same pass on any articles: whether it ends or raises, the merged
    articles stay filed under pairwise-distinct keys and the counts of the
    categories are not touched. *)
Lemma add_articles_ok items : forall st n st' n' r,
  Consolidate.add_articles items st n = (st', n', r) ->
  merged_ok st ->
  merged_ok st' /\ Consolidate.category_counts st' = Consolidate.category_counts st.
Proof.
  induction items as [|a rest IH]; intros st n st' n' r H M; cbn [Consolidate.add_articles] in H.
  - injection H as <- _ _. auto.
  - destruct (Consolidate.add_article a st n) as [[st1 n1]|e] eqn:A;
      [|injection H as <- _ _; auto].
    assert (M1 : merged_ok st1
                 /\ Consolidate.category_counts st1 = Consolidate.category_counts st).
    { unfold Consolidate.add_article in A.
      destruct (py_get a "url") as [url|] eqn:G; [|discriminate]. cbn [bind] in A.
      destruct (truthy url) eqn:T; [|injection A as <- _; auto].
      unfold set_contains, set_add in A.
      destruct (hash_key url) as [k|] eqn:K; [|discriminate]. cbn [bind] in A.
      assert (MK : merge_key a = Some k) by (unfold merge_key; rewrite G, T, K; reflexivity).
      destruct M as (F & D & E).
      case_bool_decide as Hin; cbn [negb bind] in A; injection A as <- _;
        (split; [|reflexivity]); unfold merged_ok;
        cbn [Consolidate.all_articles Consolidate.seen_urls]; [split_and!; assumption|].
      rewrite omap_app. cbn [omap list_omap]. rewrite MK.
      change (list_omap json key merge_key []) with (@nil key).
      split_and!.
      - apply Forall_app. split; [exact F|]. constructor; [rewrite MK; eauto | constructor].
      - apply NoDup_app. split_and!; [exact D | | apply NoDup_singleton].
        intros x Hx Hx'. apply list_elem_of_singleton in Hx'. subst x.
        apply Hin. rewrite E. apply elem_of_list_to_set, Hx.
      - rewrite list_to_set_app_L, E. simpl. clear. set_solver. }
    destruct M1 as [M1 C1]. destruct (IH _ _ _ _ _ H M1) as [M2 C2].
    split; [exact M2 | congruence].
Qed.

(** *** The files of the directory *)

Lemma map_is_fmap {A B} (f : A -> B) (l : list A) : map f l = f <$> l.
Proof. induction l as [|x l IH]; [reflexivity|]. simpl. rewrite IH. reflexivity. Qed.

Lemma json_files_Permutation dir :
  Consolidate.json_files dir
  ≡ₚ List.filter (fun f => Consolidate.endswith f ".json") (map fst (map_to_list dir)).
Proof. apply merge_sort_Permutation. Qed.

Lemma json_files_NoDup dir : NoDup (Consolidate.json_files dir).
Proof.
  rewrite json_files_Permutation. apply NoDup_ListNoDup, List.NoDup_filter, NoDup_ListNoDup.
  rewrite map_is_fmap. apply NoDup_fst_map_to_list.
Qed.

Lemma json_files_elem dir f :
  f ∈ Consolidate.json_files dir
  <-> Consolidate.endswith f ".json" = true /\ is_Some (dir !! f).
Proof.
  rewrite json_files_Permutation, list_elem_of_In, filter_In, <- list_elem_of_In, map_is_fmap.
  rewrite list_elem_of_fmap. split.
  - intros [([f' x] & -> & Hin) E]. split; [exact E|].
    apply elem_of_map_to_list in Hin. simpl. eauto.
  - intros [E [x Hx]]. split; [|exact E]. exists (f, x). split; [reflexivity|].
    apply elem_of_map_to_list, Hx.
Qed.

Lemma json_files_Sorted dir : Sorted String.le (Consolidate.json_files dir).
Proof. apply (Sorted_merge_sort String.le). Qed.

Lemma substring_all (s : string) : substring 0 (String.length s) s = s.
Proof. induction s as [|c s IH]; [reflexivity|]. simpl. rewrite IH. reflexivity. Qed.

Lemma substring_split (s : string) : forall k : nat,
  (k <= String.length s)%nat ->
  s = (substring 0 k s +:+ substring k (String.length s - k) s)%string.
Proof.
  induction s as [|c s IH]; intros k Hk.
  - simpl in Hk. assert (k = 0%nat) as -> by lia. reflexivity.
  - destruct k as [|k].
    + change (String c s = substring 0 (S (String.length s)) (String c s)).
      change (String c s = String c (substring 0 (String.length s) s)).
      rewrite substring_all. reflexivity.
    + simpl in Hk.
      change (String c s
              = String c (substring 0 k s +:+ substring k (String.length s - k) s)).
      f_equal. apply IH. lia.
Qed.

Lemma endswith_split f :
  Consolidate.endswith f ".json" = true ->
  f = (Consolidate.drop_extension f +:+ ".json")%string.
Proof.
  unfold Consolidate.endswith, Consolidate.drop_extension. intros H.
  apply andb_true_iff in H as [L E]. apply Nat.leb_le in L. apply String.eqb_eq in E.
  change (String.length ".json") with 5%nat in *.
  rewrite (substring_split f (String.length f - 5)) at 1 by lia.
  replace (String.length f - (String.length f - 5))%nat with 5%nat by lia.
  rewrite E. reflexivity.
Qed.

(** Two [.json] files never stand for the same category. *)
Lemma drop_extension_inj f1 f2 :
  Consolidate.endswith f1 ".json" = true -> Consolidate.endswith f2 ".json" = true ->
  Consolidate.drop_extension f1 = Consolidate.drop_extension f2 -> f1 = f2.
Proof.
  intros E1 E2 H. rewrite (endswith_split f1 E1), (endswith_split f2 E2), H. reflexivity.
Qed.

(** *** One file *)

Lemma file_articles_input dir filename :
  merge_input dir filename ->
  exists f, dir !! filename = Some f /\ readable f = true
    /\ content f = Some (JList (file_articles dir filename))
    /\ Forall (fun a => mergeable a = true) (file_articles dir filename).
Proof.
  intros (f & items & D & R & C & F). exists f. unfold file_articles. rewrite D, C. auto.
Qed.

Lemma add_file_input dir filename st :
  merge_input dir filename ->
  Consolidate.all_articles (Consolidate.add_file dir filename st)
    = Consolidate.all_articles st
      ++ first_seen (Consolidate.seen_urls st) (file_articles dir filename)
  /\ Consolidate.seen_urls (Consolidate.add_file dir filename st)
     = list_to_set (omap merge_key (file_articles dir filename)) ∪ Consolidate.seen_urls st
  /\ Consolidate.category_counts (Consolidate.add_file dir filename st)
     = <[Consolidate.drop_extension filename :=
           (length (file_articles dir filename),
            length (first_seen (Consolidate.seen_urls st) (file_articles dir filename)))]>
         (Consolidate.category_counts st)
  /\ (Consolidate.duplicate_count (Consolidate.add_file dir filename st)
      + length (first_seen (Consolidate.seen_urls st) (file_articles dir filename))
      = Consolidate.duplicate_count st
        + length (omap merge_key (file_articles dir filename)))%nat.
Proof.
  intros I. destruct (file_articles_input _ _ I) as (f & D & R & C & F).
  destruct (add_articles_spec _ st 0%nat F) as (st' & A & Ha & Hs & Hc & Hd).
  unfold Consolidate.add_file, open_read, json_load. rewrite D, R. cbn [bind]. rewrite C.
  cbn [py_len py_iter]. rewrite A.
  cbn [Consolidate.all_articles Consolidate.seen_urls Consolidate.category_counts
       Consolidate.duplicate_count]. rewrite Hc. auto.
Qed.

Lemma add_file_ok dir filename st :
  merged_ok st -> merged_ok (Consolidate.add_file dir filename st).
Proof.
  intros M. unfold Consolidate.add_file.
  destruct (f <- open_read dir filename;; json_load f) as [articles|]; [|exact M].
  destruct (py_len articles); [|exact M].
  destruct (py_iter articles) as [items|]; [|exact M].
  destruct (Consolidate.add_articles items st 0) as [[st1 n1] r] eqn:A.
  destruct (add_articles_ok _ _ _ _ _ _ A M) as [M1 _].
  destruct r; [|exact M1]. exact M1.
Qed.

(** *** The whole directory *)

Lemma total_unique_insert (m : gmap string (nat * nat)) c o n :
  m !! c = None ->
  Consolidate.total_unique (<[c := (o, n)]> m) = (n + Consolidate.total_unique m)%nat.
Proof.
  intros H. unfold Consolidate.total_unique.
  rewrite map_fold_insert_L; [reflexivity | intros; lia | exact H].
Qed.

Lemma total_original_insert (m : gmap string (nat * nat)) c o n :
  m !! c = None ->
  Consolidate.total_original (<[c := (o, n)]> m) = (o + Consolidate.total_original m)%nat.
Proof.
  intros H. unfold Consolidate.total_original.
  rewrite map_fold_insert_L; [reflexivity | intros; lia | exact H].
Qed.

Lemma flat_map_length_app {A B} (f : A -> list B) x l :
  flat_map f (x :: l) = f x ++ flat_map f l.
Proof. reflexivity. Qed.

(** The loop over the files, when each of them is read to its end. *)
Lemma add_files_inputs dir files : forall st,
  (forall f, f ∈ files -> merge_input dir f) ->
  NoDup (map Consolidate.drop_extension files) ->
  (forall f, f ∈ files ->
     Consolidate.category_counts st !! Consolidate.drop_extension f = None) ->
  let st' := fold_left (fun st filename => Consolidate.add_file dir filename st) files st in
  Consolidate.all_articles st'
    = Consolidate.all_articles st
      ++ first_seen (Consolidate.seen_urls st) (flat_map (file_articles dir) files)
  /\ Consolidate.seen_urls st'
     = list_to_set (omap merge_key (flat_map (file_articles dir) files))
       ∪ Consolidate.seen_urls st
  /\ Consolidate.total_unique (Consolidate.category_counts st')
     = (Consolidate.total_unique (Consolidate.category_counts st)
        + length (first_seen (Consolidate.seen_urls st)
                    (flat_map (file_articles dir) files)))%nat
  /\ Consolidate.total_original (Consolidate.category_counts st')
     = (Consolidate.total_original (Consolidate.category_counts st)
        + length (flat_map (file_articles dir) files))%nat
  /\ (Consolidate.duplicate_count st'
      + length (first_seen (Consolidate.seen_urls st) (flat_map (file_articles dir) files))
      = Consolidate.duplicate_count st
        + length (omap merge_key (flat_map (file_articles dir) files)))%nat
  /\ (forall f, f ∈ files ->
        exists n, Consolidate.category_counts st' !! Consolidate.drop_extension f
                  = Some (length (file_articles dir f), n))
  /\ (forall c, (forall f, f ∈ files -> c <> Consolidate.drop_extension f) ->
        Consolidate.category_counts st' !! c = Consolidate.category_counts st !! c).
Proof.
  induction files as [|f rest IH]; intros st I D Fr; cbn zeta.
  - cbn [fold_left flat_map first_seen omap list_omap length].
    rewrite app_nil_r. split_and!; try reflexivity; try lia.
    + set_solver.
    + intros f Hf. inversion Hf.
  - cbn [fold_left]. rewrite flat_map_length_app.
    cbn [map] in D. apply NoDup_cons in D as [Df Dr].
    destruct (add_file_input dir f st (I f (list_elem_of_here _ _))) as (Ha & Hs & Hc & Hd).
    assert (Fresh : forall g, g ∈ rest ->
              Consolidate.category_counts (Consolidate.add_file dir f st)
                !! Consolidate.drop_extension g = None).
    { intros g Hg. rewrite Hc, lookup_insert_ne.
      - apply Fr. right. exact Hg.
      - intros E. apply Df. rewrite E. apply list_elem_of_In, in_map, list_elem_of_In, Hg. }
    destruct (IH (Consolidate.add_file dir f st)
                 (fun g Hg => I g (list_elem_of_further _ _ _ Hg)) Dr Fresh)
      as (Ra & Rs & Ru & Ro & Rd & Re & Rf).
    cbn zeta in *.
    rewrite first_seen_app, omap_app, !length_app.
    split_and!.
    + rewrite Ra, Ha, Hs, <- app_assoc. reflexivity.
    + rewrite Rs, Hs, list_to_set_app_L. clear. set_solver.
    + rewrite Ru, Hc, Hs, total_unique_insert by (apply Fr; left). lia.
    + rewrite Ro, Hc, total_original_insert by (apply Fr; left). lia.
    + rewrite Hs in Rd. lia.
    + intros g Hg. apply elem_of_cons in Hg as [->|Hg]; [|apply Re, Hg].
      rewrite Rf, Hc, lookup_insert_eq; [eauto|].
      intros g Hg E. apply Df. rewrite E. apply list_elem_of_In, in_map, list_elem_of_In, Hg.
    + intros c Hc'. rewrite Rf, Hc, lookup_insert_ne; [reflexivity| |].
      * intros E. apply (Hc' f); [left|]. congruence.
      * intros g Hg. apply Hc'. right. exact Hg.
Qed.

Lemma add_files_ok dir files : forall st,
  merged_ok st ->
  merged_ok (fold_left (fun st filename => Consolidate.add_file dir filename st) files st).
Proof.
  induction files as [|f rest IH]; intros st M; [exact M|].
  cbn [fold_left]. apply IH, add_file_ok, M.
Qed.

Lemma start_ok : merged_ok Consolidate.start.
Proof.
  unfold merged_ok. cbn. split_and!; [constructor | constructor | reflexivity].
Qed.

Lemma json_files_categories_NoDup dir :
  NoDup (map Consolidate.drop_extension (Consolidate.json_files dir)).
Proof.
  rewrite map_is_fmap. apply NoDup_fmap_2_strong; [|apply json_files_NoDup].
  intros f1 f2 H1 H2 E.
  apply json_files_elem in H1 as [E1 _]. apply json_files_elem in H2 as [E2 _].
  eapply drop_extension_inj; eassumption.
Qed.

Lemma mergeable_split items :
  Forall (fun a => mergeable a = true) items ->
  length items = (length (omap merge_key items) + length (List.filter no_url items))%nat.
Proof.
  induction 1 as [|a rest Ma _ IH]; [reflexivity|].
  rewrite omap_cons_key. cbn [List.filter length].
  assert (H : (exists k, merge_key a = Some k /\ no_url a = false)
              \/ (merge_key a = None /\ no_url a = true)).
  { unfold mergeable in Ma. unfold merge_key, no_url.
    destruct (py_get a "url") as [url|]; [|discriminate].
    destruct (truthy url); cbn [negb]; [|auto].
    destruct (hash_key url); [eauto|discriminate]. }
  destruct H as [(k & -> & ->)|[-> ->]]; cbn [length]; lia.
Qed.

Lemma merge_stream_mergeable dir :
  (forall f, f ∈ Consolidate.json_files dir -> merge_input dir f) ->
  Forall (fun a => mergeable a = true) (merge_stream dir).
Proof.
  intros I. unfold merge_stream. apply Forall_forall. intros a Ha.
  apply list_elem_of_In, in_flat_map in Ha as (f & Hf & Ha).
  apply list_elem_of_In in Hf. apply list_elem_of_In in Ha.
  destruct (file_articles_input _ _ (I f Hf)) as (_ & _ & _ & _ & F).
  eapply Forall_forall in F; eassumption.
Qed.

Lemma length_omap_is_Some {A B} (f : A -> option B) (l : list A) :
  Forall (fun a => is_Some (f a)) l -> length (omap f l) = length l.
Proof.
  induction 1 as [|a rest [b Hb] _ IH]; [reflexivity|].
  cbn [omap list_omap]. rewrite Hb. cbn [length]. f_equal. exact IH.
Qed.

(** What [load_all_categories] returns when every [.json] file of the
    directory is read to its end. *)
Lemma load_all_categories_inputs dir :
  (forall f, f ∈ Consolidate.json_files dir -> merge_input dir f) ->
  exists counts dups,
    Consolidate.load_all_categories (Some dir)
      = Some (first_seen ∅ (merge_stream dir), counts, dups)
    /\ Consolidate.total_unique counts = length (first_seen ∅ (merge_stream dir))
    /\ Consolidate.total_original counts = length (merge_stream dir)
    /\ (dups + length (first_seen ∅ (merge_stream dir))
        = length (omap merge_key (merge_stream dir)))%nat
    /\ (forall f, f ∈ Consolidate.json_files dir ->
          exists n, counts !! Consolidate.drop_extension f
                    = Some (length (file_articles dir f), n)).
Proof.
  intros I.
  destruct (add_files_inputs dir (Consolidate.json_files dir) Consolidate.start I
              (json_files_categories_NoDup dir) (fun f _ => lookup_empty _))
    as (Ha & _ & Hu & Ho & Hd & He & _).
  cbn zeta in *. unfold Consolidate.load_all_categories.
  do 2 eexists. split; [|split_and!].
  - f_equal. f_equal. f_equal. exact Ha.
  - rewrite Hu. reflexivity.
  - rewrite Ho. reflexivity.
  - exact Hd.
  - exact He.
Qed.

(** Whatever the files hold, the merged articles all have a truthy, hashable
    url, and no two of them have the same. *)
Theorem merge_urls_distinct (dir : gmap string file) :
  exists merged counts dups,
    Consolidate.load_all_categories (Some dir) = Some (merged, counts, dups)
    /\ Forall (fun a => exists url k,
                 py_get a "url" = Ok url /\ truthy url = true /\ hash_key url = Ok k
                 /\ merge_key a = Some k) merged
    /\ NoDup (omap merge_key merged).
Proof.
  destruct (add_files_ok dir (Consolidate.json_files dir) Consolidate.start start_ok)
    as (F & D & _).
  do 3 eexists. split; [reflexivity|]. split; [|exact D].
  eapply Forall_impl; [exact F|]. intros a [k Hk]. unfold merge_key in *.
  destruct (py_get a "url") as [url|] eqn:U; [|discriminate].
  destruct (truthy url) eqn:T; [|discriminate].
  destruct (hash_key url) as [k'|] eqn:K; [|discriminate]. exists url, k'. auto.
Qed.

(** When every [.json] file is a list of articles the loop gets through:
    the files are visited in the order of their names; the output has one
    article for every distinct url of the input; and the article kept for a
    url is the first one with this url in the order of the visit. *)
Theorem merge_keeps_first_article (dir : gmap string file) :
  (forall f, f ∈ Consolidate.json_files dir -> merge_input dir f) ->
  exists merged counts dups,
    Consolidate.load_all_categories (Some dir) = Some (merged, counts, dups)
    /\ Sorted String.le (Consolidate.json_files dir)
    /\ length merged = size (list_to_set (omap merge_key (merge_stream dir)) : gset key)
    /\ forall k, List.find (with_key k) merged = List.find (with_key k) (merge_stream dir).
Proof.
  intros I. destruct (load_all_categories_inputs dir I) as (counts & dups & L & _).
  destruct (first_seen_keys (merge_stream dir) ∅) as (F & D & _ & E).
  exists (first_seen ∅ (merge_stream dir)), counts, dups.
  split; [exact L|]. split; [apply json_files_Sorted|]. split.
  - rewrite <- (length_omap_is_Some merge_key _ F), <- (size_list_to_set (C := gset key)) by exact D.
    f_equal. rewrite !(right_id_L ∅ (∪)) in E. exact E.
  - intros k. rewrite find_first_seen.
    destruct (decide (k ∈ (∅ : gset key))) as [H|_]; [|reflexivity]. set_solver.
Qed.

(** Under the same condition the statistics add up: the unique counts of the
    categories sum to the size of the output, the original counts to the
    number of articles read, and every article read is in the output, or
    counted as a duplicate, or has no url; the articles without url are in
    neither of the first two. *)
Theorem merge_counts_add_up (dir : gmap string file) :
  (forall f, f ∈ Consolidate.json_files dir -> merge_input dir f) ->
  exists merged counts dups,
    Consolidate.load_all_categories (Some dir) = Some (merged, counts, dups)
    /\ Consolidate.total_unique counts = length merged
    /\ Consolidate.total_original counts = length (merge_stream dir)
    /\ length (merge_stream dir)
       = (length merged + dups + length (List.filter no_url (merge_stream dir)))%nat
    /\ Forall (fun a => no_url a = false) merged
    /\ forall f, f ∈ Consolidate.json_files dir ->
         exists n, counts !! Consolidate.drop_extension f
                   = Some (length (file_articles dir f), n).
Proof.
  intros I. destruct (load_all_categories_inputs dir I) as (counts & dups & L & U & O & Dp & E).
  destruct (first_seen_keys (merge_stream dir) ∅) as (F & _).
  exists (first_seen ∅ (merge_stream dir)), counts, dups.
  split_and!; auto.
  - rewrite (mergeable_split _ (merge_stream_mergeable dir I)). lia.
  - eapply Forall_impl; [exact F|]. intros a [k Hk]. unfold merge_key, no_url in *.
    destruct (py_get a "url") as [url|]; [|discriminate].
    destruct (truthy url); [reflexivity|discriminate].
Qed.

(** *** A file with an article the loop cannot handle *)

Lemma add_articles_app done : forall rest st n st1 n1,
  Consolidate.add_articles done st n = (st1, n1, Ok tt) ->
  Consolidate.add_articles (done ++ rest) st n = Consolidate.add_articles rest st1 n1.
Proof.
  induction done as [|a l IH]; intros rest st n st1 n1 H; cbn [Consolidate.add_articles app] in *.
  - injection H as <- <-. reflexivity.
  - destruct (Consolidate.add_article a st n) as [[st' n']|]; [eauto|discriminate].
Qed.

Lemma add_article_raises a st n :
  mergeable a = false -> exists e, Consolidate.add_article a st n = Raise e.
Proof.
  unfold mergeable, Consolidate.add_article, set_contains. intros H.
  destruct (py_get a "url") as [url|]; [|cbn [bind]; eauto]. cbn [bind].
  destruct (truthy url); [|discriminate].
  destruct (hash_key url); [discriminate|]. cbn [bind]. eauto.
Qed.

(** A file is given up at the first article that is not an object or has a
    truthy url that cannot be hashed.  The articles before it stay merged and
    counted as duplicates, but the category gets no entry in the counts, and
    the articles after it are not read. *)
Theorem merge_abandons_file_at_bad_article dir filename f done bad later st :
  dir !! filename = Some f ->
  readable f = true ->
  content f = Some (JList (done ++ bad :: later)) ->
  Forall (fun a => mergeable a = true) done ->
  mergeable bad = false ->
  Consolidate.all_articles (Consolidate.add_file dir filename st)
    = Consolidate.all_articles st ++ first_seen (Consolidate.seen_urls st) done
  /\ Consolidate.category_counts (Consolidate.add_file dir filename st)
     = Consolidate.category_counts st
  /\ (Consolidate.duplicate_count (Consolidate.add_file dir filename st)
      + length (first_seen (Consolidate.seen_urls st) done)
      = Consolidate.duplicate_count st + length (omap merge_key done))%nat.
Proof.
  intros D R C F B.
  destruct (add_articles_spec _ st 0%nat F) as (st1 & A & Ha & _ & Hc & Hd).
  destruct (add_article_raises bad st1
              (0 + length (first_seen (Consolidate.seen_urls st) done))%nat B) as [e E].
  unfold Consolidate.add_file, open_read, json_load. rewrite D, R. cbn [bind]. rewrite C.
  cbn [py_len py_iter]. rewrite (add_articles_app _ _ _ _ _ _ A).
  cbn [Consolidate.add_articles]. rewrite E. auto.
Qed.

(** * Normalizer: the elements taken out *)

Lemma node_nested_ind (P : node -> Prop) :
  (forall s, P (NText s)) ->
  (forall tag classes children, Forall P children -> P (NElem tag classes children)) ->
  forall n, P n.
Proof.
  intros Ht He. fix IH 1. intros [s|tag classes children]; [apply Ht|].
  apply He. induction children as [|c rest IHrest]; constructor; [apply IH|exact IHrest].
Qed.

Lemma Forall_flat_map {A B} (P : B -> Prop) (f : A -> list B) (l : list A) :
  Forall (fun a => Forall P (f a)) l -> Forall P (flat_map f l).
Proof.
  induction 1 as [|a rest Ha _ IH]; cbn [flat_map]; [constructor|].
  apply Forall_app. split; assumption.
Qed.

Lemma existsb_has_unwanted_false (l : list node) :
  existsb has_unwanted l = false <-> Forall (fun m => has_unwanted m = false) l.
Proof.
  induction l as [|m rest IH]; cbn [existsb]; [split; [constructor|reflexivity]|].
  rewrite orb_false_iff, IH, Forall_cons. reflexivity.
Qed.

Lemma decompose_unwanted_clean n :
  Forall (fun m => has_unwanted m = false) (decompose_unwanted n).
Proof.
  induction n as [s|tag classes children IH] using node_nested_ind;
    cbn [decompose_unwanted]; [repeat constructor|].
  destruct (selected tag classes) eqn:S; [constructor|].
  constructor; [|constructor]. cbn [has_unwanted]. rewrite S. cbn [orb].
  apply existsb_has_unwanted_false, Forall_flat_map. exact IH.
Qed.

Lemma decompose_unwanted_keeps n :
  has_unwanted n = false -> decompose_unwanted n = [n].
Proof.
  induction n as [s|tag classes children IH] using node_nested_ind;
    cbn [decompose_unwanted has_unwanted]; [reflexivity|].
  intros H. apply orb_false_iff in H as [-> H]. do 2 f_equal.
  apply existsb_has_unwanted_false in H.
  induction children as [|c rest IHrest]; [reflexivity|]. cbn [flat_map].
  apply Forall_cons in IH as [Hc Hrest]. apply Forall_cons in H as [Uc Urest].
  rewrite (Hc Uc), (IHrest Hrest Urest). reflexivity.
Qed.

Lemma flat_map_decompose_keeps (l : list node) :
  Forall (fun m => has_unwanted m = false) l -> flat_map decompose_unwanted l = l.
Proof.
  induction 1 as [|m rest Hm _ IH]; [reflexivity|]. cbn [flat_map].
  rewrite (decompose_unwanted_keeps m Hm), IH. reflexivity.
Qed.

Lemma find_all_clean names n :
  has_unwanted n = false ->
  Forall (fun m => has_unwanted m = false) (find_all names n).
Proof.
  induction n as [s|tag classes children IH] using node_nested_ind;
    cbn [find_all]; [constructor|].
  intros H. apply Forall_app. split.
  - destruct (str_in tag names); [repeat constructor; exact H|constructor].
  - cbn [has_unwanted] in H. apply orb_false_iff in H as [_ H].
    apply existsb_has_unwanted_false in H. apply Forall_flat_map.
    rewrite Forall_forall in *. intros c Hc. apply IH; auto.
Qed.

Lemma find_all_strings names n b s :
  b ∈ find_all names n -> s ∈ all_strings b -> s ∈ all_strings n.
Proof.
  revert b s. induction n as [t|tag classes children IH] using node_nested_ind;
    intros b s Hb Hs; cbn [find_all] in Hb; [inversion Hb|].
  apply elem_of_app in Hb as [Hb|Hb].
  - destruct (str_in tag names); [|inversion Hb].
    apply list_elem_of_singleton in Hb as ->. exact Hs.
  - cbn [all_strings]. apply elem_of_flat_map in Hb as (c & Hb & Hc).
    apply elem_of_flat_map. exists c. split; [exact Hb|].
    rewrite Forall_forall in IH. eapply IH; eauto.
Qed.

Lemma clean_strings_reach n s :
  has_unwanted n = false -> s ∈ all_strings n -> reaches n s.
Proof.
  induction n as [t|tag classes children IH] using node_nested_ind;
    cbn [has_unwanted all_strings]; intros U Hs.
  - apply list_elem_of_singleton in Hs as ->. constructor.
  - apply orb_false_iff in U as [S U]. apply existsb_has_unwanted_false in U.
    apply elem_of_flat_map in Hs as (c & Hs & Hc).
    rewrite Forall_forall in IH, U. econstructor; eauto.
Qed.

Lemma decompose_unwanted_reaches n m s :
  m ∈ decompose_unwanted n -> reaches m s -> reaches n s.
Proof.
  revert m s. induction n as [t|tag classes children IH] using node_nested_ind;
    intros m s Hm R; cbn [decompose_unwanted] in Hm.
  - apply list_elem_of_singleton in Hm as ->. exact R.
  - destruct (selected tag classes) eqn:S; [inversion Hm|].
    apply list_elem_of_singleton in Hm as ->.
    inversion R as [|? ? ? c ? _ Hc Rc]; subst.
    apply elem_of_flat_map in Hc as (c0 & Hc & Hc0).
    rewrite Forall_forall in IH. econstructor; eauto.
Qed.

Lemma blocks_of_clean soup :
  Forall (fun b => has_unwanted b = false) (blocks_of soup).
Proof.
  unfold blocks_of. apply Forall_flat_map. rewrite Forall_forall. intros m Hm.
  apply find_all_clean. apply elem_of_flat_map in Hm as (n & _ & Hm).
  pose proof (decompose_unwanted_clean n) as C. rewrite Forall_forall in C. auto.
Qed.

Lemma blocks_of_reach soup b s :
  b ∈ blocks_of soup -> s ∈ all_strings b -> exists n, n ∈ soup /\ reaches n s.
Proof.
  unfold blocks_of. intros Hb Hs.
  apply elem_of_flat_map in Hb as (m & Hm & Hb).
  apply elem_of_flat_map in Hm as (n & Hn & Hm).
  exists n. split; [exact Hn|]. apply (decompose_unwanted_reaches n m s Hm).
  apply clean_strings_reach; [|exact (find_all_strings _ _ _ _ Hb Hs)].
  pose proof (decompose_unwanted_clean n) as C. rewrite Forall_forall in C. auto.
Qed.

Lemma find_all_nested names n b c :
  b ∈ find_all names n -> c ∈ find_all names b -> c ∈ find_all names n.
Proof.
  revert b c. induction n as [t|tag classes children IH] using node_nested_ind;
    intros b c Hb Hc; cbn [find_all] in Hb; [inversion Hb|].
  apply elem_of_app in Hb as [Hb|Hb].
  - destruct (str_in tag names); [|inversion Hb].
    apply list_elem_of_singleton in Hb as ->. exact Hc.
  - cbn [find_all]. apply elem_of_app. right.
    apply elem_of_flat_map in Hb as (d & Hd & Hb).
    apply elem_of_flat_map. exists d. split; [exact Hd|].
    rewrite Forall_forall in IH. eapply IH; eauto.
Qed.

(** The elements matched by the selector of line 62 never reach the text:
    every part of the result is the text of an extracted block that holds no
    such element, and every text node of this block lies in the document
    outside all of them.  Taking them out beforehand changes nothing, and a
    document without such elements goes to the block search as it is. *)
Theorem normalizer_never_reads_unwanted (soup : list node) :
  (forall t, t ∈ text_parts_of soup ->
     exists b, b ∈ blocks_of soup /\ t = get_text_strip b /\ kept t = true
       /\ has_unwanted b = false
       /\ forall s, s ∈ all_strings b -> exists n, n ∈ soup /\ reaches n s)
  /\ text_parts_of (flat_map decompose_unwanted soup) = text_parts_of soup
  /\ (Forall (fun n => has_unwanted n = false) soup ->
      blocks_of soup = flat_map (find_all block_tags) soup).
Proof.
  split_and!.
  - intros t Ht. unfold text_parts_of in Ht. rewrite collect_blocks_filter in Ht.
    cbn [app] in Ht. apply list_elem_of_In, filter_In in Ht as [Ht K].
    apply in_map_iff in Ht as (b & <- & Hb). apply list_elem_of_In in Hb.
    exists b. split_and!; [exact Hb|reflexivity|exact K| |].
    + pose proof (blocks_of_clean soup) as C. rewrite Forall_forall in C. auto.
    + intros s Hs. exact (blocks_of_reach soup b s Hb Hs).
  - unfold text_parts_of. rewrite flat_map_decompose_keeps; [reflexivity|].
    apply Forall_flat_map. rewrite Forall_forall. intros n _.
    apply decompose_unwanted_clean.
  - intros C. unfold blocks_of. rewrite (flat_map_decompose_keeps soup C). reflexivity.
Qed.

(** The block search reports nested blocks too: a block inside an extracted
    block is extracted as well, so its text nodes are read once for the
    enclosing block and once for itself. *)
Theorem normalizer_reports_nested_blocks (soup : list node) (b c : node) :
  b ∈ blocks_of soup ->
  c ∈ find_all block_tags b ->
  c ∈ blocks_of soup /\ forall s, s ∈ all_strings c -> s ∈ all_strings b.
Proof.
  intros Hb Hc. split.
  - unfold blocks_of in *. apply elem_of_flat_map in Hb as (m & Hm & Hb).
    apply elem_of_flat_map. exists m. split; [exact Hm|].
    exact (find_all_nested _ _ _ _ Hb Hc).
  - intros s Hs. exact (find_all_strings _ _ _ _ Hc Hs).
Qed.

(** * Category split *)

Lemma group_append_to k a g c :
  group (Split.append_to k a g) c = group g c ++ (if bool_decide (k = c) then [a] else []).
Proof.
  unfold group, Split.append_to. case_bool_decide as E.
  - subst c. rewrite lookup_insert_eq. reflexivity.
  - rewrite lookup_insert_ne by exact E. symmetry. apply app_nil_r.
Qed.

Lemma total_articles_append_to k a g :
  Split.total_articles (Split.append_to k a g) = S (Split.total_articles g).
Proof.
  unfold Split.total_articles, Split.append_to.
  destruct (g !! k) as [l|] eqn:E.
  - rewrite <- insert_delete_eq.
    rewrite map_fold_insert_L; [|intros; lia|apply lookup_delete_eq].
    rewrite (map_fold_delete_L _ _ k l g); [|intros; lia|exact E].
    cbn beta. rewrite length_app. cbn [length]. lia.
  - rewrite map_fold_insert_L; [|intros; lia|exact E]. cbn [length app]. reflexivity.
Qed.

Lemma append_to_nonempty k a g :
  (forall c, g !! c <> Some []) -> forall c, Split.append_to k a g !! c <> Some [].
Proof.
  intros H c. unfold Split.append_to. destruct (decide (k = c)) as [->|N].
  - rewrite lookup_insert_eq. intros [=E]. destruct (g !! c) as [[|]|]; discriminate E.
  - rewrite lookup_insert_ne by exact N. apply H.
Qed.

Lemma times_cons c k ks :
  times c (k :: ks) = ((if bool_decide (k = c) then 1 else 0) + times c ks)%nat.
Proof. unfold times. cbn [List.filter]. case_bool_decide; reflexivity. Qed.

Lemma add_to_each_spec a : forall cs g,
  match keys_of cs with
  | Some ks =>
      exists g', Split.add_to_each cs a g = Ok g'
        /\ (forall c, group g' c = group g c ++ repeat a (times c ks))
        /\ Split.total_articles g' = (Split.total_articles g + length ks)%nat
        /\ ((forall c, g !! c <> Some []) -> forall c, g' !! c <> Some [])
  | None => exists e, Split.add_to_each cs a g = Raise e
  end.
Proof.
  induction cs as [|c0 rest IH]; intros g; cbn [keys_of Split.add_to_each].
  - exists g. split_and!; [reflexivity| |cbn [length]; lia|auto].
    intros c. symmetry. apply app_nil_r.
  - destruct (hash_key c0) as [k|e]; cbn [bind]; [|eauto].
    specialize (IH (Split.append_to k a g)).
    destruct (keys_of rest) as [ks|]; [|exact IH].
    destruct IH as (g' & E & G & T & N). exists g'. split_and!.
    + exact E.
    + intros c. rewrite G, group_append_to, times_cons, <- app_assoc. f_equal.
      case_bool_decide; reflexivity.
    + rewrite T, total_articles_append_to. cbn [length]. lia.
    + intros H. apply N, append_to_nonempty, H.
Qed.

Lemma keys_of_length cs : forall ks, keys_of cs = Some ks -> length ks = length cs.
Proof.
  induction cs as [|c rest IH]; intros ks H; cbn [keys_of] in H.
  - injection H as <-. reflexivity.
  - destruct (hash_key c); [|discriminate]. destruct (keys_of rest); [|discriminate].
    injection H as <-. cbn [length]. f_equal. apply IH. reflexivity.
Qed.

Lemma truthy_iter_nonempty v cs :
  truthy v = true -> py_iter v = Ok cs -> (1 <= length cs)%nat.
Proof.
  destruct v as [| | |s|l|d]; cbn [truthy py_iter]; intros T I;
    try discriminate I; injection I as <-.
  - destruct s; [discriminate T|]. cbn [map length]. lia.
  - destruct l; [discriminate T|]. cbn [length]. lia.
  - destruct d; [discriminate T|]. cbn [map length]. lia.
Qed.

Lemma group_article_spec a g :
  match filed_under a with
  | Some ks =>
      exists g', Split.group_article a g = Ok g'
        /\ (forall c, group g' c = group g c ++ repeat a (times c ks))
        /\ Split.total_articles g' = (Split.total_articles g + length ks)%nat
        /\ ((forall c, g !! c <> Some []) -> forall c, g' !! c <> Some [])
        /\ (1 <= length ks)%nat
  | None => exists e, Split.group_article a g = Raise e
  end.
Proof.
  assert (U : exists g', Ok (Split.append_to (KStr (u8 "uncategorized")) a g) = Ok g'
        /\ (forall c, group g' c = group g c ++ repeat a (times c [uncategorized]))
        /\ Split.total_articles g' = (Split.total_articles g + length [uncategorized])%nat
        /\ ((forall c, g !! c <> Some []) -> forall c, g' !! c <> Some [])
        /\ (1 <= length [uncategorized])%nat).
  { eexists. split_and!; [reflexivity| | | |cbn [length]; lia].
    - intros c. rewrite group_append_to, times_cons. unfold uncategorized.
      case_bool_decide; reflexivity.
    - rewrite total_articles_append_to. cbn [length]. lia.
    - apply append_to_nonempty. }
  unfold filed_under, Split.group_article, Split.get_or.
  destruct a as [| | | | |d]; cbn [bind]; eauto.
  destruct (assoc "categories" d) as [categories|]; [|exact U].
  destruct (truthy categories) eqn:T; cbn [negb]; [|exact U].
  destruct (py_iter categories) as [cs|e] eqn:I; cbn [bind]; [|eauto].
  pose proof (add_to_each_spec (JDict d) cs g) as S.
  destruct (keys_of cs) as [ks|] eqn:K; [|exact S].
  destruct S as (g' & E & G & Tt & N). exists g'. split_and!; auto.
  rewrite (keys_of_length _ _ K). exact (truthy_iter_nonempty _ _ T I).
Qed.

Lemma group_articles_spec items : forall g,
  Forall (fun a => is_Some (filed_under a)) items ->
  exists g', Split.group_articles items g = Ok g'
    /\ (forall c, group g' c
                  = group g c ++ flat_map (fun a => repeat a (times c (targets a))) items)
    /\ Split.total_articles g'
       = (Split.total_articles g + length (flat_map targets items))%nat
    /\ ((forall c, g !! c <> Some []) -> forall c, g' !! c <> Some []).
Proof.
  induction items as [|a rest IH]; intros g F; cbn [Split.group_articles flat_map].
  - exists g. split_and!; [reflexivity| |cbn [length]; lia|auto].
    intros c. symmetry. apply app_nil_r.
  - apply Forall_cons in F as [[ks Ha] F].
    assert (Ht : targets a = ks) by (unfold targets; rewrite Ha; reflexivity).
    pose proof (group_article_spec a g) as S. rewrite Ha in S. rewrite Ht.
    destruct S as (g1 & E & G & T & N & _). rewrite E. cbn [bind].
    destruct (IH g1 F) as (g' & E' & G' & T' & N'). exists g'. split_and!.
    + exact E'.
    + intros c. rewrite G', G, <- app_assoc. reflexivity.
    + rewrite T', T, length_app. lia.
    + intros H. apply N', N, H.
Qed.

Lemma group_articles_raises items : forall g,
  Exists (fun a => filed_under a = None) items ->
  exists e, Split.group_articles items g = Raise e.
Proof.
  induction items as [|a rest IH]; intros g X; [inversion X|].
  cbn [Split.group_articles]. pose proof (group_article_spec a g) as S.
  destruct (filed_under a) as [ks|] eqn:Ha.
  - destruct S as (g1 & -> & _). cbn [bind]. apply IH.
    apply Exists_cons in X as [X|X]; [congruence|exact X].
  - destruct S as [e ->]. cbn [bind]. eauto.
Qed.

Lemma times_pos c ks : (0 < times c ks)%nat <-> c ∈ ks.
Proof.
  induction ks as [|k rest IH]; [cbn; split; [lia|inversion 1]|].
  rewrite times_cons, elem_of_cons. case_bool_decide as E.
  - subst k. split; [auto|lia].
  - rewrite <- IH. split; [intros H; right; cbn in H; exact H|].
    intros [->|H]; [congruence|exact H].
Qed.

Lemma flat_map_repeat_nonempty {A} (f : A -> nat) (l : list A) :
  flat_map (fun a => repeat a (f a)) l <> [] <-> exists a, a ∈ l /\ (0 < f a)%nat.
Proof.
  induction l as [|a rest IH]; cbn [flat_map].
  - split; [congruence|]. intros (a & H & _). inversion H.
  - destruct (f a) as [|n] eqn:E; cbn [repeat app].
    + rewrite IH. split; intros (b & Hb & P); exists b.
      * split; [right; exact Hb|exact P].
      * apply elem_of_cons in Hb as [->|Hb]; [lia|]. split; assumption.
    + split; [|discriminate]. intros _. exists a. split; [left|lia].
Qed.

Lemma length_flat_map_ge {A B} (f : A -> list B) (l : list A) :
  Forall (fun a => (1 <= length (f a))%nat) l ->
  (length l <= length (flat_map f l))%nat
  /\ (length (flat_map f l) = length l <-> Forall (fun a => length (f a) = 1%nat) l).
Proof.
  induction 1 as [|a rest Ha _ [IH1 IH2]]; cbn [flat_map length].
  - split; [lia|]. split; [constructor|reflexivity].
  - rewrite length_app, Forall_cons. split; [lia|]. rewrite <- IH2. lia.
Qed.

Lemma targets_nonempty a : is_Some (filed_under a) -> (1 <= length (targets a))%nat.
Proof.
  intros [ks H]. pose proof (group_article_spec a ∅) as S. unfold targets.
  rewrite H in *. destruct S as (_ & _ & _ & _ & _ & L). exact L.
Qed.

(** [group_by_category] returns exactly when every article is an object whose
    ['categories'] is missing, falsy, or a sequence of hashable values; one
    other article makes the whole call raise, and nothing is grouped. *)
Theorem group_by_category_returns_iff (items : list json) :
  (exists groups, Split.group_by_category (JList items) = Ok groups)
  <-> Forall (fun a => is_Some (filed_under a)) items.
Proof.
  unfold Split.group_by_category. cbn [py_iter bind]. split.
  - intros [g E]. apply Forall_forall. intros a Ha.
    destruct (filed_under a) as [ks|] eqn:F; [eauto|].
    destruct (group_articles_raises items ∅) as [e R]; [|congruence].
    apply Exists_exists. exists a. split; [exact Ha|exact F].
  - intros F. destruct (group_articles_spec items ∅ F) as (g & E & _). eauto.
Qed.

(** The group of a category lists the articles that name it, in the order of
    the input, each as often as it names it; the articles without categories
    are under ['uncategorized']; and the categories present are the ones some
    article is filed under, none with an empty group. *)
Theorem groups_hold_their_articles (items : list json) :
  Forall (fun a => is_Some (filed_under a)) items ->
  exists groups,
    Split.group_by_category (JList items) = Ok groups
    /\ forall c,
         group groups c = flat_map (fun a => repeat a (times c (targets a))) items
         /\ groups !! c <> Some []
         /\ (is_Some (groups !! c) <-> exists a, a ∈ items /\ c ∈ targets a).
Proof.
  intros F. destruct (group_articles_spec items ∅ F) as (g & E & G & _ & N).
  exists g. split; [exact E|]. intros c.
  assert (Hn : g !! c <> Some []) by (apply N; intros c'; rewrite lookup_empty; discriminate).
  assert (Hg : group g c = flat_map (fun a => repeat a (times c (targets a))) items).
  { rewrite G. unfold group. rewrite lookup_empty. reflexivity. }
  split_and!; [exact Hg|exact Hn|].
  transitivity (group g c <> []).
  - unfold group. destruct (g !! c) as [l|]; split.
    + intros _ ->. apply Hn. reflexivity.
    + eauto.
    + intros [x Hx]. discriminate Hx.
    + congruence.
  - rewrite Hg, flat_map_repeat_nonempty. split; intros (a & Ha & P); exists a.
    + split; [exact Ha|apply times_pos, P].
    + split; [exact Ha|apply times_pos, P].
Qed.

(** The group sizes sum to the number of category entries of the input, an
    article without categories counting for one.  So the total never falls
    below the number of articles, and equals it exactly when every article
    is filed once. *)
Theorem split_total_counts_entries (items : list json) :
  Forall (fun a => is_Some (filed_under a)) items ->
  exists groups,
    Split.group_by_category (JList items) = Ok groups
    /\ Split.total_articles groups = length (flat_map targets items)
    /\ (length items <= Split.total_articles groups)%nat
    /\ (Split.total_articles groups = length items
        <-> Forall (fun a => length (targets a) = 1%nat) items).
Proof.
  intros F. destruct (group_articles_spec items ∅ F) as (g & E & _ & T & _).
  assert (T0 : Split.total_articles g = length (flat_map targets items)).
  { rewrite T. unfold Split.total_articles. rewrite map_fold_empty. reflexivity. }
  destruct (length_flat_map_ge targets items) as [L1 L2].
  { eapply Forall_impl; [exact F|]. intros a. apply targets_nonempty. }
  exists g. rewrite T0. split_and!; [exact E|reflexivity|exact L1|exact L2].
Qed.

(** * Instances *)

(** The theorems above, at a store with one article and a remote with three
    pages of posts. *)

Lemma sport_store_loads :
  load_data sport_fs "data/sport.json" = Ok (JList [an_article "https://a/1" "first"]).
Proof. vm_compute. reflexivity. Qed.

Lemma sport_store_has_urls : Forall has_url [an_article "https://a/1" "first"].
Proof. repeat constructor. vm_compute. eauto. Qed.

Lemma harvest_appends_in_fetch_order_witness :
  load_data sport_fs "data/sport.json" = Ok (JList [an_article "https://a/1" "first"])
  /\ Forall has_url [an_article "https://a/1" "first"]
  /\ exists added used w1,
       fetch_category_posts no_entities one_paragraph tick three_pages
         "sport" 5 "data/sport.json" sport_fs quiet
       = Ok (JList ([an_article "https://a/1" "first"] ++ added), length added, w1)
       /\ sublist used (flat_map (page_posts three_pages 5) page_range)
       /\ Forall2 (built_from no_entities one_paragraph "sport") used added.
Proof.
  split; [exact sport_store_loads|]. split; [exact sport_store_has_urls|].
  exact (harvest_appends_in_fetch_order no_entities one_paragraph tick three_pages
           "sport" 5 "data/sport.json" sport_fs quiet _
           sport_store_loads sport_store_has_urls).
Defined.

Lemma harvest_urls_distinct_witness :
  load_data sport_fs "data/sport.json" = Ok (JList [an_article "https://a/1" "first"])
  /\ Forall has_url [an_article "https://a/1" "first"]
  /\ NoDup (url_keys [an_article "https://a/1" "first"])
  /\ exists coll n w1,
       fetch_category_posts no_entities one_paragraph tick three_pages
         "sport" 5 "data/sport.json" sport_fs quiet = Ok (JList coll, n, w1)
       /\ Forall has_url coll
       /\ NoDup (url_keys coll)
       /\ (Forall nonempty_url [an_article "https://a/1" "first"] ->
           (forall page post, post ∈ page_posts three_pages 5 page -> nonempty_link post) ->
           Forall nonempty_url coll).
Proof.
  split; [exact sport_store_loads|]. split; [exact sport_store_has_urls|].
  assert (D : NoDup (url_keys [an_article "https://a/1" "first"]))
    by (vm_compute; apply NoDup_singleton).
  split; [exact D|].
  exact (harvest_urls_distinct no_entities one_paragraph tick three_pages
           "sport" 5 "data/sport.json" sport_fs quiet _
           sport_store_loads sport_store_has_urls D).
Defined.

Lemma harvest_idempotent_witness :
  exists data n w1,
    fetch_category_posts no_entities one_paragraph tick three_pages
      "sport" 5 "data/sport.json" sport_fs quiet = Ok (data, n, w1)
    /\ load_data {[ "data/sport.json"%string := File (Some data) true true ]}
         "data/sport.json" = Ok data
    /\ exists w3,
         fetch_category_posts no_entities one_paragraph tick three_pages
           "sport" 5 "data/sport.json"
           {[ "data/sport.json"%string := File (Some data) true true ]} w1
         = Ok (data, 0%nat, w3).
Proof.
  destruct (fetch_category_posts no_entities one_paragraph tick three_pages
              "sport" 5 "data/sport.json" sport_fs quiet) as [[[data n] w1]|e] eqn:R.
  - exists data, n, w1. split; [reflexivity|].
    assert (L : load_data {[ "data/sport.json"%string := File (Some data) true true ]}
                  "data/sport.json" = Ok data).
    { erewrite load_data_present by apply lookup_singleton_eq. reflexivity. }
    split; [exact L|].
    exact (harvest_idempotent no_entities one_paragraph tick three_pages
             "sport" 5 "data/sport.json" sport_fs quiet data n w1 _ w1 R L).
  - exfalso. vm_compute in R. discriminate R.
Defined.



Lemma failing_post_stops_category_witness :
  exists st1,
    one_broken_post 5 1
      = Response 200 (Some (JList [a_post 11 "https://a/1" "one" "<p>first</p>"; broken_post;
                                   a_post 12 "https://a/2" "two" "<p>second</p>"]))
    /\ status_ok 200
    /\ py_iter (JList [a_post 11 "https://a/1" "one" "<p>first</p>"; broken_post;
                       a_post 12 "https://a/2" "two" "<p>second</p>"])
       = Ok ([a_post 11 "https://a/1" "one" "<p>first</p>"]
             ++ broken_post :: [a_post 12 "https://a/2" "two" "<p>second</p>"])
    /\ process_posts no_entities one_paragraph tick "sport"
         [a_post 11 "https://a/1" "one" "<p>first</p>"]
         (send_request 5 1 {| new_articles := []; existing_urls := ∅; outside := quiet |})
       = (st1, Ok tt)
    /\ process_post no_entities one_paragraph tick "sport" broken_post st1 = Raise KeyError
    /\ paginate no_entities one_paragraph tick one_broken_post "sport" 5 [1; 2; 3]
         {| new_articles := []; existing_urls := ∅; outside := quiet |} = st1
    /\ length (new_articles st1) = 1%nat
    /\ requests_sent (outside st1) = [(5, 1)].
Proof.
  destruct (process_posts no_entities one_paragraph tick "sport"
              [a_post 11 "https://a/1" "one" "<p>first</p>"]
              (send_request 5 1 {| new_articles := []; existing_urls := ∅; outside := quiet |}))
    as [st1 r] eqn:D.
  assert (S : status_ok 200) by (left; lia).
  assert (Hr : r = Ok tt) by (vm_compute in D; congruence).
  subst r.
  assert (P : process_post no_entities one_paragraph tick "sport" broken_post st1
              = Raise KeyError).
  { vm_compute in D. injection D as <-. vm_compute. reflexivity. }
  exists st1. do 5 (split; [first [reflexivity | assumption]|]).
  destruct (failing_post_stops_category no_entities one_paragraph tick one_broken_post
              "sport" 5 1 [2; 3] {| new_articles := []; existing_urls := ∅; outside := quiet |}
              200
              (JList [a_post 11 "https://a/1" "one" "<p>first</p>"; broken_post;
                      a_post 12 "https://a/2" "two" "<p>second</p>"])
              [a_post 11 "https://a/1" "one" "<p>first</p>"] broken_post
              [a_post 12 "https://a/2" "two" "<p>second</p>"]
              st1 KeyError eq_refl S eq_refl D P)
    as (Pg & Rq & _ & _).
  split; [exact Pg|]. split; [|exact Rq].
  vm_compute in D. injection D as <-. reflexivity.
Defined.

Lemma requests_are_consecutive_pages_witness :
  exists data n w1,
    fetch_category_posts no_entities one_paragraph tick three_pages
      "sport" 5 "data/sport.json" sport_fs quiet = Ok (data, n, w1)
    /\ exists k : nat,
         1 <= Z.of_nat k <= MAX_PAGES_PER_CATEGORY
         /\ requests_sent w1 = requests_sent quiet ++ map (pair 5) (seqZ 1 (Z.of_nat k))
         /\ (pauses quiet + k - 1 <= pauses w1 <= pauses quiet + k)%nat.
Proof.
  destruct (fetch_category_posts no_entities one_paragraph tick three_pages
              "sport" 5 "data/sport.json" sport_fs quiet) as [[[data n] w1]|e] eqn:R.
  - exists data, n, w1. split; [reflexivity|].
    exact (requests_are_consecutive_pages no_entities one_paragraph tick three_pages
             "sport" 5 "data/sport.json" sport_fs quiet data n w1 R).
  - exfalso. vm_compute in R. discriminate R.
Defined.

Lemma empty_store_ok (filepath : string) : store_ok ∅ filepath.
Proof.
  split.
  - intros f H. rewrite lookup_empty in H. discriminate.
  - exists []. split; [apply load_data_absent, lookup_empty | constructor].
Qed.





Lemma harvest_all_aborts_on_failed_save_witness :
  store_ok ∅ (get_category_file "sport")
  /\ disk_full (get_category_file "sport") = FailsDuringDump
  /\ exists fs1 w1 e,
       harvest_all no_entities one_paragraph tick three_pages disk_full
         [("sport"%string, 5); ("svet"%string, 1091)] ∅ quiet = (fs1, w1, Raise e)
       /\ stored fs1 (get_category_file "sport") = None
       /\ load_data fs1 (get_category_file "sport") = Ok (JList [])
       /\ (forall p, p <> get_category_file "sport" -> fs1 !! p = (∅ : gmap string file) !! p)
       /\ exists sent, requests_sent w1 = requests_sent quiet ++ (5, 1) :: sent.
Proof.
  split; [apply empty_store_ok|]. split; [reflexivity|].
  exact (harvest_all_aborts_on_failed_save no_entities one_paragraph tick three_pages disk_full
           "sport" 5 [("svet"%string, 1091)] ∅ quiet (empty_store_ok _) eq_refl).
Defined.

Lemma down_is_unusable :
  ~ (exists status posts,
       down 5 1 = Response status (Some (JList posts)) /\ status_ok status /\ posts <> []).
Proof. intros (status & posts & R & _). discriminate R. Qed.

Lemma unusable_first_page_changes_nothing_witness :
  load_data sport_fs "data/sport.json" = Ok (JList [an_article "https://a/1" "first"])
  /\ Forall has_url [an_article "https://a/1" "first"]
  /\ ~ (exists status posts,
          down 5 1 = Response status (Some (JList posts)) /\ status_ok status /\ posts <> [])
  /\ fetch_category_posts no_entities one_paragraph tick down
       "sport" 5 "data/sport.json" sport_fs quiet
     = Ok (JList [an_article "https://a/1" "first"], 0%nat,
           {| requests_sent := requests_sent quiet ++ [(5, 1)];
              clock := clock quiet; pauses := pauses quiet |}).
Proof.
  split; [exact sport_store_loads|]. split; [exact sport_store_has_urls|].
  split; [exact down_is_unusable|].
  exact (unusable_first_page_changes_nothing no_entities one_paragraph tick down
           "sport" 5 "data/sport.json" sport_fs quiet _
           sport_store_loads sport_store_has_urls down_is_unusable).
Defined.

(** ** Corpus merger *)

Lemma two_files_json_files :
  Consolidate.json_files two_files = ["a-b.json"; "a.json"]%string.
Proof. vm_compute. reflexivity. Qed.

Lemma two_files_inputs :
  forall f, f ∈ Consolidate.json_files two_files -> merge_input two_files f.
Proof.
  intros f Hf. rewrite two_files_json_files in Hf.
  apply elem_of_cons in Hf as [->|Hf]; [|apply elem_of_cons in Hf as [->|Hf]].
  - eexists _, _. split_and!; [vm_compute; reflexivity | reflexivity | reflexivity |].
    repeat constructor.
  - eexists _, _. split_and!; [vm_compute; reflexivity | reflexivity | reflexivity |].
    repeat constructor.
  - inversion Hf.
Qed.

Lemma merge_keeps_first_article_witness :
  (forall f, f ∈ Consolidate.json_files two_files -> merge_input two_files f)
  /\ exists merged counts dups,
       Consolidate.load_all_categories (Some two_files) = Some (merged, counts, dups)
       /\ Sorted String.le (Consolidate.json_files two_files)
       /\ length merged
          = size (list_to_set (omap merge_key (merge_stream two_files)) : gset key)
       /\ forall k, List.find (with_key k) merged
                    = List.find (with_key k) (merge_stream two_files).
Proof.
  split; [exact two_files_inputs|].
  exact (merge_keeps_first_article two_files two_files_inputs).
Defined.

Lemma merge_counts_add_up_witness :
  (forall f, f ∈ Consolidate.json_files two_files -> merge_input two_files f)
  /\ exists merged counts dups,
       Consolidate.load_all_categories (Some two_files) = Some (merged, counts, dups)
       /\ Consolidate.total_unique counts = length merged
       /\ Consolidate.total_original counts = length (merge_stream two_files)
       /\ length (merge_stream two_files)
          = (length merged + dups
             + length (List.filter no_url (merge_stream two_files)))%nat
       /\ Forall (fun a => no_url a = false) merged
       /\ forall f, f ∈ Consolidate.json_files two_files ->
            exists n, counts !! Consolidate.drop_extension f
                      = Some (length (file_articles two_files f), n).
Proof.
  split; [exact two_files_inputs|].
  exact (merge_counts_add_up two_files two_files_inputs).
Defined.

Lemma merge_abandons_file_at_bad_article_witness :
  file_with_string !! "x.json"%string
    = Some (File (Some (JList ([an_article "https://a/1" "X1"]
                               ++ JStr (u8 "oops") :: [an_article "https://a/2" "X2"])))
                 true true)
  /\ Forall (fun a => mergeable a = true) [an_article "https://a/1" "X1"]
  /\ mergeable (JStr (u8 "oops")) = false
  /\ Consolidate.all_articles
       (Consolidate.add_file file_with_string "x.json" Consolidate.start)
     = Consolidate.all_articles Consolidate.start
       ++ first_seen (Consolidate.seen_urls Consolidate.start)
            [an_article "https://a/1" "X1"]
  /\ Consolidate.category_counts
       (Consolidate.add_file file_with_string "x.json" Consolidate.start)
     = Consolidate.category_counts Consolidate.start
  /\ (Consolidate.duplicate_count
        (Consolidate.add_file file_with_string "x.json" Consolidate.start)
      + length (first_seen (Consolidate.seen_urls Consolidate.start)
                  [an_article "https://a/1" "X1"])
      = Consolidate.duplicate_count Consolidate.start
        + length (omap merge_key [an_article "https://a/1" "X1"]))%nat.
Proof.
  assert (L : file_with_string !! "x.json"%string
    = Some (File (Some (JList ([an_article "https://a/1" "X1"]
                               ++ JStr (u8 "oops") :: [an_article "https://a/2" "X2"])))
                 true true)) by (vm_compute; reflexivity).
  assert (F : Forall (fun a => mergeable a = true) [an_article "https://a/1" "X1"])
    by (repeat constructor).
  split; [exact L|]. split; [exact F|]. split; [reflexivity|].
  exact (merge_abandons_file_at_bad_article file_with_string "x.json" _
           [an_article "https://a/1" "X1"] (JStr (u8 "oops"))
           [an_article "https://a/2" "X2"] Consolidate.start
           L eq_refl eq_refl F eq_refl).
Defined.

(** ** Normalizer *)

Lemma normalizer_reports_nested_blocks_witness :
  list_with_paragraph (u8 "Вест") ∈ blocks_of [list_with_paragraph (u8 "Вест")]
  /\ paragraph (u8 "Вест") ∈ find_all block_tags (list_with_paragraph (u8 "Вест"))
  /\ paragraph (u8 "Вест") ∈ blocks_of [list_with_paragraph (u8 "Вест")]
  /\ (forall s, s ∈ all_strings (paragraph (u8 "Вест")) ->
                s ∈ all_strings (list_with_paragraph (u8 "Вест")))
  /\ text_parts_of [list_with_paragraph (u8 "Вест")] = [u8 "Вест"; u8 "Вест"].
Proof.
  assert (Hb : list_with_paragraph (u8 "Вест") ∈ blocks_of [list_with_paragraph (u8 "Вест")])
    by (apply list_elem_of_In; vm_compute; left; reflexivity).
  assert (Hc : paragraph (u8 "Вест") ∈ find_all block_tags (list_with_paragraph (u8 "Вест")))
    by (apply list_elem_of_In; vm_compute; right; left; reflexivity).
  split; [exact Hb|]. split; [exact Hc|].
  destruct (normalizer_reports_nested_blocks _ _ _ Hb Hc) as [H1 H2].
  split; [exact H1|]. split; [exact H2|]. vm_compute. reflexivity.
Defined.

(** ** Category split *)

Lemma filed_articles_ok : Forall (fun a => is_Some (filed_under a)) filed_articles.
Proof. repeat (constructor; [eexists; vm_compute; reflexivity|]). constructor. Qed.

Lemma groups_hold_their_articles_witness :
  Forall (fun a => is_Some (filed_under a)) filed_articles
  /\ exists groups,
       Split.group_by_category (JList filed_articles) = Ok groups
       /\ forall c,
            group groups c
            = flat_map (fun a => repeat a (times c (targets a))) filed_articles
            /\ groups !! c <> Some []
            /\ (is_Some (groups !! c) <-> exists a, a ∈ filed_articles /\ c ∈ targets a).
Proof.
  split; [exact filed_articles_ok|].
  exact (groups_hold_their_articles filed_articles filed_articles_ok).
Defined.

Lemma split_total_counts_entries_witness :
  Forall (fun a => is_Some (filed_under a)) filed_articles
  /\ exists groups,
       Split.group_by_category (JList filed_articles) = Ok groups
       /\ Split.total_articles groups = length (flat_map targets filed_articles)
       /\ (length filed_articles <= Split.total_articles groups)%nat
       /\ (Split.total_articles groups = length filed_articles
           <-> Forall (fun a => length (targets a) = 1%nat) filed_articles).
Proof.
  split; [exact filed_articles_ok|].
  exact (split_total_counts_entries filed_articles filed_articles_ok).
Defined.
